(** * BM25 indexing service: the index manager of [bm25_service.py]

    A shallow embedding of [BM25Manager] (create / search / save / load) and
    of the [delete_index] endpoint, with the in-memory registries as finite
    maps, the storage directory as a finite map from paths to files, and
    Python exceptions as an explicit error result. *)

From Stdlib Require Import ZArith Ascii String List Permutation Sorted Lia.
From stdpp Require Import gmap strings pretty list fin_maps.

Local Open Scope Z_scope.

(** ** Strings and storage paths *)

Module Paths.

(** [s.replace(old, new)] for a one-character [old] and [new]. *)
Fixpoint replace_char (old new : ascii) (s : string) : string :=
  match s with
  | EmptyString => EmptyString
  | String c s' =>
      String (if Ascii.eqb c old then new else c) (replace_char old new s')
  end.

Definition slash : ascii := "/"%char.
Definition backslash : ascii := "\"%char.
Definition underscore : ascii := "_"%char.

(** [filename.replace("/", "_").replace("\\", "_")] *)
Definition safe_filename (filename : string) : string :=
  replace_char backslash underscore (replace_char slash underscore filename).

Definition startswith_sep (s : string) : bool :=
  match s with
  | String c _ => Ascii.eqb c slash
  | EmptyString => false
  end.

Fixpoint endswith_sep (s : string) : bool :=
  match s with
  | EmptyString => false
  | String c EmptyString => Ascii.eqb c slash
  | String _ s' => endswith_sep s'
  end.

(** [os.path.join(a, b)] (posixpath, two components). *)
Definition path_join (a b : string) : string :=
  if startswith_sep b then b
  else if (String.eqb a EmptyString || endswith_sep a)%bool then String.append a b
  else String.append a (String slash b).

(** What [path_join a] puts in front of a relative component. *)
Definition join_prefix (a : string) : string :=
  if (String.eqb a EmptyString || endswith_sep a)%bool then a
  else String.append a (String slash EmptyString).

Definition index_suffix : string := ".bm25".
Definition metadata_suffix : string := ".meta".

Definition _get_index_path (storage_path filename : string) : string :=
  path_join storage_path (String.append (safe_filename filename) index_suffix).

Definition _get_metadata_path (storage_path filename : string) : string :=
  path_join storage_path (String.append (safe_filename filename) metadata_suffix).

(** A name free of both path separators. *)
Fixpoint no_separator (s : string) : bool :=
  match s with
  | EmptyString => true
  | String c s' =>
      (negb (Ascii.eqb c slash) && negb (Ascii.eqb c backslash) && no_separator s')%bool
  end.

(** One of the three characters that sanitization cannot tell apart. *)
Definition separator_like (c : ascii) : bool :=
  (Ascii.eqb c slash || Ascii.eqb c backslash || Ascii.eqb c underscore)%bool.

End Paths.

(** ** Python values, exceptions and list indexing *)

(** The exceptions the service can see.  [HTTPException] is FastAPI's (a
    subclass of [Exception]); [LibraryError] stands for whatever [bm25s] or
    the operating system raises, carrying its [str()]. *)
Inductive Exn :=
| HTTPException (status_code : Z) (detail : string)
| KeyError (key : string)
| IndexError
| LibraryError (msg : string).

Inductive result (A : Type) :=
| Ok (a : A)
| Raise (e : Exn).
Arguments Ok {A} a.
Arguments Raise {A} e.

(** [str(e)] *)
Definition exc_str (e : Exn) : string :=
  match e with
  | HTTPException status_code detail =>
      String.append (pretty status_code) (String.append ": " detail)
  | KeyError key => String.append "'" (String.append key "'")
  | IndexError => "list index out of range"
  | LibraryError msg => msg
  end.

Definition len {A : Type} (l : list A) : Z := Z.of_nat (length l).

(** [l[i]] for a Python list: a negative [i] counts from the end, anything
    outside [-len(l) <= i < len(l)] raises [IndexError]. *)
Definition py_index {A : Type} (l : list A) (i : Z) : result A :=
  let j := if i <? 0 then i + len l else i in
  if j <? 0 then Raise IndexError
  else match l !! Z.to_nat j with
       | Some x => Ok x
       | None => Raise IndexError
       end.

(** ** The scoring library

    [bm25s] is an external dependency.  The service only ever tokenizes a
    corpus and trains a retriever on it, and asks a retriever for the top
    [k] rows of a query; both calls may raise. *)
Class BM25S := {
  Retriever : Type;
  Score : Type;
  (** [bm25s.tokenize(corpus)], [bm25s.BM25(corpus=...)], [retriever.index(...)] *)
  bm25s_index : list string -> result Retriever;
  (** [retriever.retrieve(bm25s.tokenize([query]), k=top_k)], as the rows
      [scores[0]] and [indices[0]] *)
  bm25s_retrieve : Retriever -> string -> Z -> result (list Score * list Z);
  (** number of documents a trained retriever holds *)
  num_docs : Retriever -> Z
}.

(** ** Data model of the service *)

Section Model.
Context {Meta : Type} {E : BM25S}.

(** [ChunkData]: [id], [text], [metadata] *)
Record ChunkData := {
  cd_id : string;
  cd_text : string;
  cd_metadata : Meta
}.

(** The [index_metadata] dictionary built by [create_index]. *)
Record IndexMetadata := {
  md_filename : string;
  chunk_count : Z;
  chunk_ids : list string;
  chunk_metadata : list Meta;
  created_at : string;
  corpus_size : Z
}.

(** [BM25Manager]: [indices] and [metadata] are its two dictionaries. *)
Record BM25Manager := {
  storage_path : string;
  indices : gmap string Retriever;
  metadata : gmap string IndexMetadata
}.

(** What a file of the storage directory holds: a pickled retriever, a
    JSON metadata document, or bytes that neither [pickle.load] nor
    [json.load] accepts (for instance a file cut short by a failed write). *)
Inductive File :=
| PickleFile (r : Retriever)
| JsonFile (m : IndexMetadata)
| Garbage.

(** The process state: the global manager and the storage directory. *)
Record World := {
  mgr : BM25Manager;
  disk : gmap string File
}.

(** One entry of the [results] list of a search. *)
Record SearchHit := {
  rank : Z;
  hit_chunk_id : string;
  hit_score : Score;
  hit_metadata : Meta
}.

(** The dictionaries the operations return.  The two float fields of the
    [indexed] answer ([processing_time_seconds], [index_size_mb]) are
    left out. *)
Inductive Response :=
| RExists (filename : string) (chunks : Z) (message : string)
| RIndexed (filename : string) (chunks : Z) (created : string)
| RSearch (query filename : string) (results : list SearchHit) (total_results : Z)
| RDeleted (filename : string).

Definition status (r : Response) : string :=
  match r with
  | RExists _ _ _ => "exists"
  | RIndexed _ _ _ => "indexed"
  | RSearch _ _ _ _ => "success"
  | RDeleted _ => "deleted"
  end.

(** Where a disk write of [_save_index_to_disk] goes wrong, if anywhere. *)
Inductive SaveFault :=
| NoFault
| OpenIndexFails
| DumpIndexFails
| OpenMetadataFails
| DumpMetadataFails.

Definition set_disk (w : World) (d : gmap string File) : World :=
  {| mgr := mgr w; disk := d |}.

Definition set_mgr (w : World) (m : BM25Manager) : World :=
  {| mgr := m; disk := disk w |}.

Definition index_path (w : World) (filename : string) : string :=
  Paths._get_index_path (storage_path (mgr w)) filename.

Definition metadata_path (w : World) (filename : string) : string :=
  Paths._get_metadata_path (storage_path (mgr w)) filename.

(** [self.indices[filename] = retriever; self.metadata[filename] = md] *)
Definition install (filename : string) (r : Retriever) (md : IndexMetadata)
    (m : BM25Manager) : BM25Manager :=
  {| storage_path := storage_path m;
     indices := <[filename := r]> (indices m);
     metadata := <[filename := md]> (metadata m) |}.

(** [_save_index_to_disk]: every exception is caught and logged, so the
    call returns normally whatever happens.  Opening a file for writing
    creates or truncates it; a dump that fails leaves it unreadable. *)
Definition _save_index_to_disk (fault : SaveFault) (filename : string)
    (retriever : Retriever) (md : IndexMetadata) (w : World) : World :=
  let ip := index_path w filename in
  let mp := metadata_path w filename in
  match fault with
  | OpenIndexFails => w
  | DumpIndexFails => set_disk w (<[ip := Garbage]> (disk w))
  | OpenMetadataFails => set_disk w (<[ip := PickleFile retriever]> (disk w))
  | DumpMetadataFails =>
      set_disk w (<[mp := Garbage]> (<[ip := PickleFile retriever]> (disk w)))
  | NoFault =>
      set_disk w (<[mp := JsonFile md]> (<[ip := PickleFile retriever]> (disk w)))
  end.

(** [_load_index_from_disk]: [False] when a file is missing or cannot be
    decoded; the dictionaries are written only after both files loaded. *)
Definition _load_index_from_disk (filename : string) (w : World) : bool * World :=
  match disk w !! index_path w filename, disk w !! metadata_path w filename with
  | Some fi, Some fm =>
      match fi, fm with
      | PickleFile retriever, JsonFile md =>
          (true, set_mgr w (install filename retriever md (mgr w)))
      | _, _ => (false, w)
      end
  | _, _ => (false, w)
  end.

(** [create_index] without its [try]: the body up to the first exception. *)
Definition create_body (chunks : list ChunkData) (filename : string)
    (replace_existing : bool) (now : string) (fault : SaveFault) (w : World)
    : result Response * World :=
  if (negb replace_existing && bool_decide (is_Some (indices (mgr w) !! filename)))%bool
  then (Ok (RExists filename (len chunks)
              "Index already exists and replace_existing=False"), w)
  else
    let corpus := map cd_text chunks in
    match bm25s_index corpus with
    | Raise e => (Raise e, w)
    | Ok retriever =>
        let index_metadata :=
          {| md_filename := filename;
             chunk_count := len chunks;
             chunk_ids := map cd_id chunks;
             chunk_metadata := map cd_metadata chunks;
             created_at := now;
             corpus_size := len corpus |} in
        let w1 := set_mgr w (install filename retriever index_metadata (mgr w)) in
        let w2 := _save_index_to_disk fault filename retriever index_metadata w1 in
        (Ok (RIndexed filename (len chunks) now), w2)
    end.

(** [except Exception as e: raise HTTPException(status_code=500, ...)] *)
Definition reraise_500 {A : Type} (prefix : string) (r : result A) : result A :=
  match r with
  | Ok a => Ok a
  | Raise e => Raise (HTTPException 500 (String.append prefix (exc_str e)))
  end.

Definition create_index (chunks : list ChunkData) (filename : string)
    (replace_existing : bool) (now : string) (fault : SaveFault) (w : World)
    : result Response * World :=
  let '(r, w') := create_body chunks filename replace_existing now fault w in
  (reraise_500 "Failed to create index: " r, w').

(** The result-formatting loop of [search_index]; [i] is the position that
    [enumerate] has reached. *)
Fixpoint format_results (md : IndexMetadata) (i : Z) (rows : list (Score * Z))
    : result (list SearchHit) :=
  match rows with
  | [] => Ok []
  | (score, idx) :: rest =>
      if idx <? len (chunk_ids md) then
        match py_index (chunk_ids md) idx with
        | Raise e => Raise e
        | Ok cid =>
            match py_index (chunk_metadata md) idx with
            | Raise e => Raise e
            | Ok m =>
                match format_results md (i + 1) rest with
                | Raise e => Raise e
                | Ok hits =>
                    Ok ({| rank := i + 1; hit_chunk_id := cid;
                           hit_score := score; hit_metadata := m |} :: hits)
                end
            end
        end
      else format_results md (i + 1) rest
  end.

(** [search_index] from the retrieval on: query the retriever, format. *)
Definition search_ready (retriever : Retriever) (md : IndexMetadata)
    (query filename : string) (top_k : Z) : result Response :=
  match bm25s_retrieve retriever query top_k with
  | Raise e => Raise e
  | Ok (scores, idxs) =>
      match format_results md 0 (combine scores idxs) with
      | Raise e => Raise e
      | Ok results => Ok (RSearch query filename results (len results))
      end
  end.

(** [search_index] without its [try]. *)
Definition search_body (query filename : string) (top_k : Z) (w : World)
    : result Response * World :=
  let w1 :=
    if bool_decide (is_Some (indices (mgr w) !! filename)) then w
    else snd (_load_index_from_disk filename w) in
  match indices (mgr w1) !! filename with
  | None =>
      (Raise (HTTPException 404
                (String.append "Index not found for filename: " filename)), w1)
  | Some retriever =>
      match metadata (mgr w1) !! filename with
      | None => (Raise (KeyError filename), w1)
      | Some md => (search_ready retriever md query filename top_k, w1)
      end
  end.

Definition search_index (query filename : string) (top_k : Z) (w : World)
    : result Response * World :=
  let '(r, w') := search_body query filename top_k w in
  (reraise_500 "Search failed: " r, w').

(** [os.remove(path)] guarded by [os.path.exists(path)]; [rm path] is
    [Some msg] when the removal raises an error whose text is [msg]. *)
Definition remove_if_exists (rm : string -> option string) (path : string)
    (w : World) : result unit * World :=
  match disk w !! path with
  | None => (Ok tt, w)
  | Some _ =>
      match rm path with
      | Some msg => (Raise (LibraryError msg), w)
      | None => (Ok tt, set_disk w (delete path (disk w)))
      end
  end.

(** The [delete_index] endpoint without its [try]. *)
Definition delete_body (rm : string -> option string) (filename : string)
    (w : World) : result Response * World :=
  let m := mgr w in
  let ind :=
    if bool_decide (is_Some (indices m !! filename))
    then delete filename (indices m) else indices m in
  let mds :=
    if bool_decide (is_Some (metadata m !! filename))
    then delete filename (metadata m) else metadata m in
  let w1 := set_mgr w {| storage_path := storage_path m; indices := ind; metadata := mds |} in
  match remove_if_exists rm (index_path w1 filename) w1 with
  | (Raise e, w2) => (Raise e, w2)
  | (Ok _, w2) =>
      match remove_if_exists rm (metadata_path w2 filename) w2 with
      | (Raise e, w3) => (Raise e, w3)
      | (Ok _, w3) => (Ok (RDeleted filename), w3)
      end
  end.

Definition delete_index (rm : string -> option string) (filename : string)
    (w : World) : result Response * World :=
  let '(r, w') := delete_body rm filename w in
  (reraise_500 "Failed to delete index: " r, w').

(** [BM25Manager(storage_path)] on a storage directory holding [d]. *)
Definition init (path : string) (d : gmap string File) : World :=
  {| mgr := {| storage_path := path; indices := ∅; metadata := ∅ |}; disk := d |}.

(** Requests reaching the service, with what the environment decides for
    each (clock, write faults, removal faults). *)
Inductive Request :=
| ReqCreate (chunks : list ChunkData) (filename : string) (replace_existing : bool)
    (now : string) (fault : SaveFault)
| ReqSearch (query filename : string) (top_k : Z)
| ReqDelete (rm : string -> option string) (filename : string).

Definition step (req : Request) (w : World) : result Response * World :=
  match req with
  | ReqCreate chunks filename replace_existing now fault =>
      create_index chunks filename replace_existing now fault w
  | ReqSearch query filename top_k => search_index query filename top_k w
  | ReqDelete rm filename => delete_index rm filename w
  end.

Definition run (reqs : list Request) (w : World) : World :=
  fold_left (fun w req => snd (step req w)) reqs w.

(** Both dictionaries have the same keys. *)
Definition aligned (w : World) : Prop :=
  dom (indices (mgr w)) = dom (metadata (mgr w)).

(** The collection is neither in memory nor in the storage directory. *)
Definition never_existed (filename : string) (w : World) : Prop :=
  indices (mgr w) !! filename = None /\
  metadata (mgr w) !! filename = None /\
  disk w !! index_path w filename = None /\
  disk w !! metadata_path w filename = None.

(** One entry of the [indices] dictionary of [get_stats]. *)
Record IndexStats := {
  stat_chunk_count : Z;
  stat_created_at : string;
  stat_corpus_size : Z
}.

Record Stats := {
  total_indices : Z;
  stats_indices : gmap string IndexStats
}.

(** [get_stats]: [len(self.indices)] and one entry per key of
    [self.metadata].  (The defaults of [metadata.get] are for keys a
    metadata dictionary lacks; the record has them all.) *)
Definition get_stats (m : BM25Manager) : Stats :=
  {| total_indices := Z.of_nat (size (indices m));
     stats_indices :=
       (fun md => {| stat_chunk_count := chunk_count md;
                     stat_created_at := created_at md;
                     stat_corpus_size := corpus_size md |}) <$> metadata m |}.

(** The process is stopped and started again on the same directory. *)
Definition restart (w : World) : World := init (storage_path (mgr w)) (disk w).

(** The collection a request is about. *)
Definition request_name (req : Request) : string :=
  match req with
  | ReqCreate _ filename _ _ _ => filename
  | ReqSearch _ filename _ => filename
  | ReqDelete _ filename => filename
  end.

(** A metadata dictionary whose four size fields agree. *)
Definition md_consistent (md : IndexMetadata) : Prop :=
  len (chunk_ids md) = chunk_count md /\
  len (chunk_metadata md) = chunk_count md /\
  corpus_size md = chunk_count md.

(** Every metadata dictionary in memory and every metadata document in the
    storage directory is consistent. *)
Definition metadata_consistent (w : World) : Prop :=
  (forall filename md, metadata (mgr w) !! filename = Some md -> md_consistent md) /\
  (forall path md, disk w !! path = Some (JsonFile md) -> md_consistent md).

End Model.

Arguments ChunkData : clear implicits.
Arguments IndexMetadata : clear implicits.
Arguments SearchHit Meta {E}.
Arguments BM25Manager Meta {E}.
Arguments File Meta {E}.
Arguments World Meta {E}.
Arguments Response Meta {E}.
Arguments Request : clear implicits.
Arguments Stats : clear implicits.

(** ** The scoring engine as the specification describes it *)

Module SpecEngine.

Definition is_upper (c : ascii) : bool :=
  ((65 <=? nat_of_ascii c)%nat && (nat_of_ascii c <=? 90)%nat)%bool.

Definition is_alnum (c : ascii) : bool :=
  let n := nat_of_ascii c in
  ((48 <=? n)%nat && (n <=? 57)%nat || is_upper c
   || (97 <=? n)%nat && (n <=? 122)%nat)%bool.

Definition lower (c : ascii) : ascii :=
  if is_upper c then ascii_of_nat (nat_of_ascii c + 32) else c.

Definition flush (cur : list ascii) : list string :=
  match cur with
  | [] => []
  | _ => [string_of_list_ascii cur]
  end.

Fixpoint split_terms (cur : list ascii) (s : string) : list string :=
  match s with
  | EmptyString => flush cur
  | String c s' =>
      if is_alnum c then split_terms (cur ++ [lower c]) s'
      else flush cur ++ split_terms [] s'
  end.

(** Modelled from the spec: the tokenizer of section 4.1 ([bm25s.tokenize]
    is not part of the sources): lowercase, split on every character that
    is not alphanumeric, no empty terms. *)
Definition tokenize (text : string) : list string := split_terms [] text.

(** Modelled from the spec: the index artifact of section 3, kept as the
    tokenized corpus in input order, from which corpus size, document
    lengths and term frequencies are read off. *)
Record Artifact := { docs : list (list string) }.

Definition corpus_size (a : Artifact) : nat := length (docs a).

Definition tf (t : string) (d : list string) : Z :=
  len (filter (fun u => u = t) d).

(** Modelled from the spec: [build] of section 4.2; an empty corpus gives
    a valid empty artifact. *)
Definition build (corpus : list (list string)) : Artifact := {| docs := corpus |}.

Section Ranking.
Context {ScoreT : Type}.
(** The floating-point score of section 4.2 and its order are parameters:
    ranking only compares scores. *)
Variable score : Artifact -> list string -> nat -> ScoreT.
Variable score_leb : ScoreT -> ScoreT -> bool.

Definition scored (a : Artifact) (q : list string) : list (nat * ScoreT) :=
  map (fun i => (i, score a q i)) (seq 0 (corpus_size a)).

(** Higher score first; on equal scores the smaller document index first. *)
Definition ranks_before (x y : nat * ScoreT) : bool :=
  if score_leb (snd y) (snd x)
  then (if score_leb (snd x) (snd y) then (fst x <=? fst y)%nat else true)
  else false.

Fixpoint insert_ranked (x : nat * ScoreT) (l : list (nat * ScoreT))
    : list (nat * ScoreT) :=
  match l with
  | [] => [x]
  | y :: l' => if ranks_before x y then x :: y :: l' else y :: insert_ranked x l'
  end.

Definition sort_ranked (l : list (nat * ScoreT)) : list (nat * ScoreT) :=
  foldr insert_ranked [] l.

(** Modelled from the spec: [retrieve] of section 4.2 ([BM25.retrieve] of
    bm25s is not part of the sources): the top [k] documents by descending
    score, ties by ascending document index; a [k] beyond the corpus size
    returns every document. *)
Definition retrieve (a : Artifact) (q : list string) (k : nat) : list (nat * ScoreT) :=
  take k (sort_ranked (scored a q)).

(** Modelled from the spec: the engine behind the calls the service makes
    to [bm25s]; a negative [top_k] is the [InvalidInput] of section 7. *)
Definition engine : BM25S :=
  {| Retriever := Artifact;
     Score := ScoreT;
     bm25s_index corpus := Ok (build (map tokenize corpus));
     bm25s_retrieve r query top_k :=
       if top_k <? 0 then Raise (LibraryError "InvalidInput: negative top_k")
       else
         let hits := retrieve r (tokenize query) (Z.to_nat top_k) in
         Ok (map snd hits, map (fun h => Z.of_nat (fst h)) hits);
     num_docs r := Z.of_nat (corpus_size r) |}.

End Ranking.

(** A computable stand-in for the score, for the worked examples: the
    number of occurrences of the query terms in the document. *)
Definition overlap_score (a : Artifact) (q : list string) (i : nat) : Z :=
  match docs a !! i with
  | Some d => foldr (fun t acc => tf t d + acc) 0 q
  | None => 0
  end.

Definition overlap_engine : BM25S := engine overlap_score Z.leb.

End SpecEngine.

(** ** Worked data for the concrete cases *)

Module Examples.

#[local] Existing Instance SpecEngine.overlap_engine.

Definition store : string := "/tmp/bm25_indices".

Definition chunk (i t : string) : ChunkData string :=
  {| cd_id := i; cd_text := t; cd_metadata := String.append "meta of " i |}.

Definition pets : list (ChunkData string) :=
  [chunk "c1" "the cat sat"; chunk "c2" "the dog ran"; chunk "c3" "cats and dogs"].

(** A service just started on an empty storage directory. *)
Definition fresh : World string := init store ∅.

(** ... after indexing [pets] as collection [doc], everything saved. *)
Definition indexed : World string :=
  snd (create_index pets "doc" true "t0" NoFault fresh).

(** ... and after a restart: [doc] is on disk only. *)
Definition restarted : World string := init store (disk indexed).

(** A storage directory whose artifact holds two documents while the
    metadata next to it describes one. *)
Definition mismatched_artifact : SpecEngine.Artifact :=
  SpecEngine.build [["the"; "cat"]; ["the"; "dog"]].

Definition mismatched_metadata : IndexMetadata string :=
  {| md_filename := "doc"; chunk_count := 1; chunk_ids := ["c1"];
     chunk_metadata := ["meta of c1"]; created_at := "t0"; corpus_size := 1 |}.

Definition mismatched : World string :=
  init store
    (<[Paths._get_metadata_path store "doc" := JsonFile mismatched_metadata]>
       (<[Paths._get_index_path store "doc" := PickleFile mismatched_artifact]> ∅)).

(** Metadata of a two-chunk collection, for the formatting loop. *)
Definition two_chunks : IndexMetadata string :=
  {| md_filename := "doc"; chunk_count := 2; chunk_ids := ["c1"; "c2"];
     chunk_metadata := ["meta of c1"; "meta of c2"]; created_at := "t0";
     corpus_size := 2 |}.

(** What the create of [indexed] built. *)
Definition pets_artifact : SpecEngine.Artifact :=
  SpecEngine.build (map SpecEngine.tokenize (map cd_text pets)).

Definition pets_metadata : IndexMetadata string :=
  {| md_filename := "doc"; chunk_count := 3; chunk_ids := map cd_id pets;
     chunk_metadata := map cd_metadata pets; created_at := "t0";
     corpus_size := 3 |}.

(** A second corpus for the same collection name. *)
Definition birds : list (ChunkData string) := [chunk "n1" "a bird flew"].

Definition birds_artifact : SpecEngine.Artifact :=
  SpecEngine.build (map SpecEngine.tokenize (map cd_text birds)).

End Examples.

(** * Storage keys *)

Module PathFacts.
Import Paths.

Lemma list_ascii_of_append (s t : string) :
  list_ascii_of_string (String.append s t)
  = list_ascii_of_string s ++ list_ascii_of_string t.
Proof.
  induction s as [|c s IH]; [reflexivity|].
  change (String.append (String c s) t) with (String c (String.append s t)).
  cbn [list_ascii_of_string]. now rewrite IH.
Qed.

Lemma list_ascii_of_string_inj (s t : string) :
  list_ascii_of_string s = list_ascii_of_string t -> s = t.
Proof.
  intros H. rewrite <- (string_of_list_ascii_of_string s),
    <- (string_of_list_ascii_of_string t). now rewrite H.
Qed.

Lemma append_inv_tail (s1 s2 t : string) :
  String.append s1 t = String.append s2 t -> s1 = s2.
Proof.
  intros H. apply list_ascii_of_string_inj.
  apply (f_equal list_ascii_of_string) in H.
  rewrite !list_ascii_of_append in H.
  now apply app_inv_tail in H.
Qed.

Lemma safe_char_not_slash (c : ascii) :
  Ascii.eqb
    (if Ascii.eqb (if Ascii.eqb c slash then underscore else c) backslash
     then underscore else (if Ascii.eqb c slash then underscore else c))
    slash = false.
Proof.
  destruct (Ascii.eqb c slash) eqn:Hc; [reflexivity|].
  destruct (Ascii.eqb c backslash); [reflexivity | exact Hc].
Qed.

(** A sanitized name followed by a dotted suffix is never an absolute path,
    so [os.path.join] does not discard the storage directory. *)
Lemma safe_not_absolute (filename suffix : string) :
  startswith_sep suffix = false ->
  startswith_sep (String.append (safe_filename filename) suffix) = false.
Proof.
  intros Hs. destruct filename as [|c s]; [exact Hs|].
  apply safe_char_not_slash.
Qed.

Lemma append_assoc (a b c : string) :
  String.append (String.append a b) c = String.append a (String.append b c).
Proof.
  induction a as [|x a IH]; [reflexivity|].
  change (String x (String.append (String.append a b) c)
          = String x (String.append a (String.append b c))).
  now rewrite IH.
Qed.

Lemma path_join_relative (a b : string) :
  startswith_sep b = false -> path_join a b = String.append (join_prefix a) b.
Proof.
  intros Hb. unfold path_join, join_prefix. rewrite Hb.
  destruct (String.eqb a EmptyString || endswith_sep a)%bool; [reflexivity|].
  now rewrite append_assoc.
Qed.

Lemma index_path_eq (sp a b : string) :
  _get_index_path sp a = _get_index_path sp b <-> safe_filename a = safe_filename b.
Proof.
  unfold _get_index_path. split; [|now intros ->].
  rewrite !path_join_relative by now apply safe_not_absolute.
  intros H. apply String.app_inj in H. now apply append_inv_tail in H.
Qed.

Lemma metadata_path_eq (sp a b : string) :
  _get_metadata_path sp a = _get_metadata_path sp b <-> safe_filename a = safe_filename b.
Proof.
  unfold _get_metadata_path. split; [|now intros ->].
  rewrite !path_join_relative by now apply safe_not_absolute.
  intros H. apply String.app_inj in H. now apply append_inv_tail in H.
Qed.

Lemma safe_filename_id (s : string) :
  no_separator s = true -> safe_filename s = s.
Proof.
  induction s as [|c s IH]; [reflexivity|]. cbn [no_separator].
  rewrite !andb_true_iff, !negb_true_iff. intros [[H1 H2] H3].
  unfold safe_filename in *. cbn [replace_char]. rewrite H1, H2.
  now rewrite IH.
Qed.

(** C7 (as amended): sanitization is injective on the names it leaves
    alone.  Two distinct collection names that contain neither a slash nor
    a backslash get distinct index paths and distinct metadata paths. *)
Theorem storage_keys_distinct_without_separators (sp a b : string) :
  no_separator a = true -> no_separator b = true -> a <> b ->
  _get_index_path sp a <> _get_index_path sp b /\
  _get_metadata_path sp a <> _get_metadata_path sp b.
Proof.
  intros Ha Hb Hne.
  split; intros H; apply Hne.
  - apply index_path_eq in H. now rewrite !safe_filename_id in H.
  - apply metadata_path_eq in H. now rewrite !safe_filename_id in H.
Qed.

Lemma storage_keys_distinct_witness :
  no_separator "report.pdf" = true /\
  no_separator "notes.txt" = true /\
  "report.pdf"%string <> "notes.txt"%string /\
  _get_index_path "/tmp/bm25_indices" "report.pdf"
    <> _get_index_path "/tmp/bm25_indices" "notes.txt" /\
  _get_metadata_path "/tmp/bm25_indices" "report.pdf"
    <> _get_metadata_path "/tmp/bm25_indices" "notes.txt".
Proof.
  split; [reflexivity|]. split; [reflexivity|]. split; [discriminate|].
  apply (storage_keys_distinct_without_separators
           "/tmp/bm25_indices" "report.pdf" "notes.txt");
    [reflexivity | reflexivity | discriminate].
Defined.

(** C7 (as stated) fails: the names [a/b] and [a_b] are distinct and share
    both storage files. *)
Lemma sanitization_not_injective :
  "a/b"%string <> "a_b"%string /\
  _get_index_path "/tmp/bm25_indices" "a/b" = _get_index_path "/tmp/bm25_indices" "a_b" /\
  _get_metadata_path "/tmp/bm25_indices" "a/b"
    = _get_metadata_path "/tmp/bm25_indices" "a_b".
Proof. split; [discriminate | split; reflexivity]. Qed.

End PathFacts.

(** * The index manager *)

Section ServiceFacts.
Context {Meta : Type} {E : BM25S}.
Implicit Types (w : World Meta) (filename query : string) (top_k : Z).

Lemma index_path_set_mgr w m filename :
  storage_path m = storage_path (mgr w) ->
  index_path (set_mgr w m) filename = index_path w filename.
Proof. unfold index_path. cbn. now intros ->. Qed.

Lemma metadata_path_set_mgr w m filename :
  storage_path m = storage_path (mgr w) ->
  metadata_path (set_mgr w m) filename = metadata_path w filename.
Proof. unfold metadata_path. cbn. now intros ->. Qed.

Lemma load_absent filename w :
  disk w !! index_path w filename = None \/
  disk w !! metadata_path w filename = None ->
  _load_index_from_disk filename w = (false, w).
Proof.
  unfold _load_index_from_disk. intros [H|H]; rewrite H; [reflexivity|].
  now destruct (disk w !! index_path w filename).
Qed.

Lemma load_cases filename w :
  (exists r md,
      disk w !! index_path w filename = Some (PickleFile r) /\
      disk w !! metadata_path w filename = Some (JsonFile md) /\
      _load_index_from_disk filename w
      = (true, set_mgr w (install filename r md (mgr w)))) \/
  ((forall r md,
       ~ (disk w !! index_path w filename = Some (PickleFile r) /\
          disk w !! metadata_path w filename = Some (JsonFile md))) /\
   _load_index_from_disk filename w = (false, w)).
Proof.
  unfold _load_index_from_disk.
  destruct (disk w !! index_path w filename) as [fi|] eqn:Hi;
    [destruct (disk w !! metadata_path w filename) as [fm|] eqn:Hm|].
  - destruct fi as [r| |]; try (right; split; [intros ? ? [? ?]; congruence | reflexivity]).
    destruct fm as [|md|]; try (right; split; [intros ? ? [? ?]; congruence | reflexivity]).
    left. now exists r, md.
  - right. split; [intros ? ? [? ?]; congruence | reflexivity].
  - right. split; [intros ? ? [? ?]; congruence | reflexivity].
Qed.

(** A collection present in memory is searched without touching the disk. *)
Lemma search_index_ready query filename top_k w r md :
  indices (mgr w) !! filename = Some r ->
  metadata (mgr w) !! filename = Some md ->
  search_index query filename top_k w
  = (reraise_500 "Search failed: " (search_ready r md query filename top_k), w).
Proof.
  intros Hi Hm. unfold search_index, search_body.
  rewrite bool_decide_eq_true_2 by (rewrite Hi; eauto).
  now rewrite Hi, Hm.
Qed.

(** C1: searching a collection that is neither in memory nor on disk.  The
    404 raised for it sits inside the [try] of [search_index], whose
    handler turns every exception into a 500: the caller receives status
    500, never the 404. *)
Theorem search_unknown_collection_status query filename top_k w :
  indices (mgr w) !! filename = None ->
  disk w !! index_path w filename = None ->
  exists detail,
    search_index query filename top_k w = (Raise (HTTPException 500 detail), w).
Proof.
  intros Hi Hd. unfold search_index, search_body.
  rewrite bool_decide_eq_false_2 by (rewrite Hi; intros [? ?]; discriminate).
  rewrite load_absent by now left. cbn [snd]. rewrite Hi.
  cbn. eexists. reflexivity.
Qed.

(** C2 (as amended): with [replace_existing = false], a collection that is
    in the in-memory registry is left alone: the answer is "exists", the
    registry and the storage directory are unchanged, and every later
    search answers as it would have before the call. *)
Theorem create_without_replace_keeps_loaded
    (chunks : list (ChunkData Meta)) filename (now : string) (fault : SaveFault) w :
  is_Some (indices (mgr w) !! filename) ->
  exists r,
    create_index chunks filename false now fault w = (Ok r, w) /\
    status r = "exists"%string /\
    forall query f top_k,
      search_index query f top_k (snd (create_index chunks filename false now fault w))
      = search_index query f top_k w.
Proof.
  intros Hin.
  assert (Hc : create_index chunks filename false now fault w
               = (Ok (RExists filename (len chunks)
                        "Index already exists and replace_existing=False"), w)).
  { unfold create_index, create_body.
    now rewrite bool_decide_eq_true_2 by exact Hin. }
  eexists. split; [exact Hc|]. split; [reflexivity|].
  intros. now rewrite Hc.
Qed.

(** C5 (as amended): [_load_index_from_disk] reports success exactly when
    the artifact file and the metadata file are both present and each
    decodes; it then installs that pair as it is.  When either is missing
    it reports failure and leaves the manager unchanged.  The two files are
    not compared with each other. *)
Theorem load_succeeds_iff_both_files filename w :
  (fst (_load_index_from_disk filename w) = true <->
   exists r md,
     disk w !! index_path w filename = Some (PickleFile r) /\
     disk w !! metadata_path w filename = Some (JsonFile md)) /\
  (forall r md,
     disk w !! index_path w filename = Some (PickleFile r) ->
     disk w !! metadata_path w filename = Some (JsonFile md) ->
     snd (_load_index_from_disk filename w)
     = set_mgr w (install filename r md (mgr w))) /\
  (fst (_load_index_from_disk filename w) = false ->
   snd (_load_index_from_disk filename w) = w).
Proof.
  destruct (load_cases filename w) as [(r & md & Hi & Hm & ->)|[Hno ->]]; cbn.
  - split; [split; [eauto | reflexivity]|]. split; [|discriminate].
    intros r' md' Hi' Hm'. congruence.
  - split; [split; [discriminate | intros (r & md & H); exfalso; eapply Hno; eauto]|].
    split; [|reflexivity].
    intros r md Hi Hm. exfalso. eapply Hno; eauto.
Qed.

Lemma save_mgr (fault : SaveFault) filename (r : Retriever)
    (md : IndexMetadata Meta) w :
  mgr (_save_index_to_disk fault filename r md w) = mgr w.
Proof. now destruct fault. Qed.

(** What a create that builds does: the answer and the resulting manager
    are the same whatever happens to the disk writes. *)
Lemma create_index_builds (chunks : list (ChunkData Meta)) filename
    (replace_existing : bool) (now : string) (fault : SaveFault) w r :
  bm25s_index (map cd_text chunks) = Ok r ->
  replace_existing = true \/ indices (mgr w) !! filename = None ->
  let md := {| md_filename := filename; chunk_count := len chunks;
               chunk_ids := map cd_id chunks;
               chunk_metadata := map cd_metadata chunks;
               created_at := now;
               corpus_size := len (map cd_text chunks) |} in
  let w1 := set_mgr w (install filename r md (mgr w)) in
  create_index chunks filename replace_existing now fault w
  = (Ok (RIndexed filename (len chunks) now),
     _save_index_to_disk fault filename r md w1).
Proof.
  intros Hb Hguard md w1. unfold create_index, create_body.
  assert (Hg : (negb replace_existing
                && bool_decide (is_Some (indices (mgr w) !! filename)))%bool = false).
  { destruct Hguard as [->|Hn]; [reflexivity|].
    rewrite bool_decide_eq_false_2; [apply andb_false_r|].
    rewrite Hn. intros [? ?]; discriminate. }
  rewrite Hg, Hb. reflexivity.
Qed.

(** C6: when the build succeeds, [create_index] answers "indexed" for every
    outcome of the disk writes, the new retriever and its metadata are in
    the registry, and a search of the collection is answered from them. *)
Theorem create_survives_save_failure (chunks : list (ChunkData Meta)) filename
    (replace_existing : bool) (now : string) (fault : SaveFault) w r :
  bm25s_index (map cd_text chunks) = Ok r ->
  replace_existing = true \/ indices (mgr w) !! filename = None ->
  exists resp w' md,
    create_index chunks filename replace_existing now fault w = (Ok resp, w') /\
    status resp = "indexed"%string /\
    indices (mgr w') !! filename = Some r /\
    metadata (mgr w') !! filename = Some md /\
    chunk_ids md = map cd_id chunks /\
    chunk_metadata md = map cd_metadata chunks /\
    forall query top_k,
      search_index query filename top_k w'
      = (reraise_500 "Search failed: " (search_ready r md query filename top_k), w').
Proof.
  intros Hb Hguard.
  pose proof (create_index_builds chunks filename replace_existing now fault w r
                Hb Hguard) as Hc. cbn zeta in Hc.
  eexists _, _, _. split; [exact Hc|]. split; [reflexivity|].
  assert (Hi : indices (mgr (_save_index_to_disk fault filename r
       {| md_filename := filename; chunk_count := len chunks;
          chunk_ids := map cd_id chunks; chunk_metadata := map cd_metadata chunks;
          created_at := now; corpus_size := len (map cd_text chunks) |}
       (set_mgr w (install filename r
          {| md_filename := filename; chunk_count := len chunks;
             chunk_ids := map cd_id chunks; chunk_metadata := map cd_metadata chunks;
             created_at := now; corpus_size := len (map cd_text chunks) |}
          (mgr w))))) !! filename = Some r).
  { rewrite save_mgr. cbn. apply lookup_insert_eq. }
  assert (Hm : metadata (mgr (_save_index_to_disk fault filename r
       {| md_filename := filename; chunk_count := len chunks;
          chunk_ids := map cd_id chunks; chunk_metadata := map cd_metadata chunks;
          created_at := now; corpus_size := len (map cd_text chunks) |}
       (set_mgr w (install filename r
          {| md_filename := filename; chunk_count := len chunks;
             chunk_ids := map cd_id chunks; chunk_metadata := map cd_metadata chunks;
             created_at := now; corpus_size := len (map cd_text chunks) |}
          (mgr w))))) !! filename
       = Some {| md_filename := filename; chunk_count := len chunks;
          chunk_ids := map cd_id chunks; chunk_metadata := map cd_metadata chunks;
          created_at := now; corpus_size := len (map cd_text chunks) |}).
  { rewrite save_mgr. cbn. apply lookup_insert_eq. }
  split; [exact Hi|]. split; [exact Hm|]. split; [reflexivity|]. split; [reflexivity|].
  intros query top_k. now apply search_index_ready.
Qed.

(** ** Alignment of the two registries *)

Lemma aligned_install filename (r : Retriever) (md : IndexMetadata Meta) w :
  aligned w -> aligned (set_mgr w (install filename r md (mgr w))).
Proof.
  unfold aligned. cbn. intros H. now rewrite !dom_insert_L, H.
Qed.

Lemma dom_guarded_delete {V : Type} (k : string) (m : gmap string V) :
  dom (if bool_decide (is_Some (m !! k)) then delete k m else m) = dom m ∖ {[k]}.
Proof.
  case_bool_decide as Hk.
  - apply dom_delete_L.
  - rewrite <- elem_of_dom in Hk. apply set_eq. intros x.
    rewrite elem_of_difference, elem_of_singleton.
    split; [intros Hx; split; [exact Hx | now intros ->] | tauto].
Qed.

Lemma remove_if_exists_mgr (rm : string -> option string) (path : string) w :
  mgr (snd (remove_if_exists rm path w)) = mgr w.
Proof.
  unfold remove_if_exists.
  destruct (disk w !! path); [|reflexivity]. now destruct (rm path).
Qed.

Lemma delete_body_mgr (rm : string -> option string) filename w :
  mgr (snd (delete_body rm filename w))
  = {| storage_path := storage_path (mgr w);
       indices := if bool_decide (is_Some (indices (mgr w) !! filename))
                  then delete filename (indices (mgr w)) else indices (mgr w);
       metadata := if bool_decide (is_Some (metadata (mgr w) !! filename))
                   then delete filename (metadata (mgr w)) else metadata (mgr w) |}.
Proof.
  unfold delete_body.
  match goal with
  | |- context [remove_if_exists rm ?p ?w1] =>
      pose proof (remove_if_exists_mgr rm p w1) as H1;
      destruct (remove_if_exists rm p w1) as [[u|e] w2]
  end; cbn [snd] in *; [|exact H1].
  match goal with
  | |- context [remove_if_exists rm ?p ?w1] =>
      pose proof (remove_if_exists_mgr rm p w1) as H2;
      destruct (remove_if_exists rm p w1) as [[u'|e] w3]
  end; cbn [snd] in *; now rewrite H2, H1.
Qed.

Lemma aligned_create (chunks : list (ChunkData Meta)) filename
    (replace_existing : bool) (now : string) (fault : SaveFault) w :
  aligned w ->
  aligned (snd (create_index chunks filename replace_existing now fault w)).
Proof.
  intros Ha. unfold create_index, create_body.
  destruct (negb replace_existing
            && bool_decide (is_Some (indices (mgr w) !! filename)))%bool; [exact Ha|].
  destruct (bm25s_index (map cd_text chunks)) as [r|e]; [|exact Ha].
  cbn [snd]. unfold aligned. rewrite save_mgr. now apply aligned_install.
Qed.

Lemma aligned_load filename w :
  aligned w -> aligned (snd (_load_index_from_disk filename w)).
Proof.
  intros Ha.
  destruct (load_cases filename w) as [(r & md & _ & _ & ->)|[_ ->]]; [|exact Ha].
  now apply aligned_install.
Qed.

Lemma search_index_world query filename top_k w :
  snd (search_index query filename top_k w)
  = if bool_decide (is_Some (indices (mgr w) !! filename)) then w
    else snd (_load_index_from_disk filename w).
Proof.
  unfold search_index, search_body.
  set (w1 := if bool_decide (is_Some (indices (mgr w) !! filename)) then w
             else snd (_load_index_from_disk filename w)).
  destruct (indices (mgr w1) !! filename); [|reflexivity].
  now destruct (metadata (mgr w1) !! filename).
Qed.

Lemma aligned_search query filename top_k w :
  aligned w -> aligned (snd (search_index query filename top_k w)).
Proof.
  intros Ha. rewrite search_index_world.
  case_bool_decide; [exact Ha | now apply aligned_load].
Qed.

Lemma delete_index_world (rm : string -> option string) filename w :
  snd (delete_index rm filename w) = snd (delete_body rm filename w).
Proof. unfold delete_index. now destruct (delete_body rm filename w). Qed.

Lemma aligned_delete (rm : string -> option string) filename w :
  aligned w -> aligned (snd (delete_index rm filename w)).
Proof.
  intros Ha. rewrite delete_index_world. unfold aligned.
  rewrite delete_body_mgr. cbn. rewrite !dom_guarded_delete. now rewrite Ha.
Qed.

Lemma aligned_step (req : Request Meta) w :
  aligned w -> aligned (snd (step req w)).
Proof.
  destruct req; cbn [step];
    [apply aligned_create | apply aligned_search | apply aligned_delete].
Qed.

(** C10: in every state the service reaches from start-up, through any
    sequence of create, search (with its lazy load) and delete requests and
    whatever the disk does, the index registry and the metadata registry
    have exactly the same collection names. *)
Theorem registries_stay_aligned (path : string) (d : gmap string (File Meta))
    (reqs : list (Request Meta)) :
  dom (indices (mgr (run reqs (init path d))))
  = dom (metadata (mgr (run reqs (init path d)))).
Proof.
  change (aligned (run reqs (init path d))).
  assert (H0 : aligned (init path d)) by (unfold aligned; cbn; now rewrite !dom_empty_L).
  revert H0. generalize (init path d) as w.
  unfold run. induction reqs as [|req reqs IH]; intros w Hw; [exact Hw|].
  cbn [fold_left]. apply IH. now apply aligned_step.
Qed.

(** ** Deletion *)

Lemma guarded_delete_lookup {V : Type} (k : string) (m : gmap string V) :
  (if bool_decide (is_Some (m !! k)) then delete k m else m) !! k = None.
Proof.
  case_bool_decide as Hk; [apply lookup_delete_eq|].
  destruct (m !! k) eqn:Hm; [|reflexivity]. exfalso. apply Hk. eauto.
Qed.

Lemma guarded_delete_absent {V : Type} (k : string) (m : gmap string V) :
  m !! k = None ->
  (if bool_decide (is_Some (m !! k)) then delete k m else m) = m.
Proof.
  intros Hm. rewrite bool_decide_eq_false_2; [reflexivity|].
  rewrite Hm. intros [? ?]; discriminate.
Qed.

Lemma delete_body_never_existed (rm : string -> option string) filename w :
  never_existed filename w ->
  delete_body rm filename w = (Ok (RDeleted filename), w).
Proof.
  intros (Hi & Hm & Hdi & Hdm). destruct w as [[sp ind mds] d].
  unfold delete_body, remove_if_exists, index_path, metadata_path in *.
  cbn in *. rewrite !guarded_delete_absent by assumption.
  cbn. rewrite Hdi. cbn. now rewrite Hdm.
Qed.

Lemma delete_body_twice (rm : string -> option string) filename w :
  delete_body rm filename (snd (delete_body rm filename w))
  = delete_body rm filename w.
Proof.
  destruct w as [[sp ind mds] d].
  unfold delete_body, remove_if_exists, index_path, metadata_path, set_mgr, set_disk.
  cbn [mgr disk storage_path indices metadata].
  set (ip := Paths._get_index_path sp filename).
  set (mp := Paths._get_metadata_path sp filename).
  set (ind' := if bool_decide (is_Some (ind !! filename))
               then delete filename ind else ind).
  set (mds' := if bool_decide (is_Some (mds !! filename))
               then delete filename mds else mds).
  assert (Hi : (if bool_decide (is_Some (ind' !! filename))
                then delete filename ind' else ind') = ind')
    by (apply guarded_delete_absent, guarded_delete_lookup).
  assert (Hm : (if bool_decide (is_Some (mds' !! filename))
                then delete filename mds' else mds') = mds')
    by (apply guarded_delete_absent, guarded_delete_lookup).
  destruct (d !! ip) as [fi|] eqn:Hdi.
  - destruct (rm ip) as [msg|] eqn:Hrm.
    + cbn [snd mgr disk storage_path indices metadata].
      fold ip mp. rewrite Hi, Hm, Hdi, Hrm. reflexivity.
    + cbn [snd mgr disk storage_path indices metadata]. fold ip mp.
      destruct (delete ip d !! mp) as [fm|] eqn:Hdm.
      * destruct (rm mp) as [msg|] eqn:Hrm'.
        -- cbn [snd mgr disk storage_path indices metadata]. fold ip mp.
           rewrite Hi, Hm, lookup_delete_eq.
           cbn [snd mgr disk storage_path indices metadata]. fold ip mp.
           rewrite Hdm, Hrm'. reflexivity.
        -- cbn [snd mgr disk storage_path indices metadata]. fold ip mp.
           rewrite Hi, Hm.
           assert (Hne : mp <> ip).
           { intros Heq. rewrite Heq, lookup_delete_eq in Hdm. discriminate. }
           rewrite (lookup_delete_ne _ mp ip) by exact Hne.
           rewrite lookup_delete_eq.
           cbn [snd mgr disk storage_path indices metadata]. fold ip mp.
           rewrite lookup_delete_eq. reflexivity.
      * cbn [snd mgr disk storage_path indices metadata]. fold ip mp.
        rewrite Hi, Hm, lookup_delete_eq.
        cbn [snd mgr disk storage_path indices metadata]. fold ip mp.
        rewrite Hdm. reflexivity.
  - cbn [snd mgr disk storage_path indices metadata]. fold ip mp.
    destruct (d !! mp) as [fm|] eqn:Hdm.
    + destruct (rm mp) as [msg|] eqn:Hrm'.
      * cbn [snd mgr disk storage_path indices metadata]. fold ip mp.
        rewrite Hi, Hm, Hdi.
        cbn [snd mgr disk storage_path indices metadata]. fold ip mp.
        rewrite Hdm, Hrm'. reflexivity.
      * cbn [snd mgr disk storage_path indices metadata]. fold ip mp.
        rewrite Hi, Hm.
        assert (Hne : mp <> ip) by (intros Heq; rewrite Heq, Hdi in Hdm; discriminate).
        rewrite (lookup_delete_ne _ mp ip) by exact Hne. rewrite Hdi.
        cbn [snd mgr disk storage_path indices metadata]. fold ip mp.
        rewrite lookup_delete_eq. reflexivity.
    + cbn [snd mgr disk storage_path indices metadata]. fold ip mp.
      rewrite Hi, Hm, Hdi.
      cbn [snd mgr disk storage_path indices metadata]. fold ip mp.
      rewrite Hdm. reflexivity.
Qed.

Lemma delete_body_no_fault (rm : string -> option string) filename w :
  (forall p, rm p = None) ->
  fst (delete_body rm filename w) = Ok (RDeleted filename).
Proof.
  intros Hrm. unfold delete_body, remove_if_exists.
  repeat match goal with
         | |- context [rm ?p] => rewrite (Hrm p)
         | |- context [match ?d !! ?p with _ => _ end] => destruct (d !! p)
         end; reflexivity.
Qed.

(** C9: deleting a collection that is neither in memory nor on disk answers
    "deleted" and changes nothing; a second delete gives the answer and the
    state of the first; and as long as no file removal fails, delete
    answers "deleted" for every collection name. *)
Theorem delete_is_idempotent (rm : string -> option string) filename w :
  (never_existed filename w ->
   delete_index rm filename w = (Ok (RDeleted filename), w)) /\
  delete_index rm filename (snd (delete_index rm filename w))
  = delete_index rm filename w /\
  ((forall p, rm p = None) ->
   exists resp,
     fst (delete_index rm filename w) = Ok resp /\ status resp = "deleted"%string).
Proof.
  split; [|split].
  - intros Hn. unfold delete_index.
    now rewrite delete_body_never_existed.
  - rewrite delete_index_world. unfold delete_index at 1 2.
    now rewrite delete_body_twice.
  - intros Hrm. pose proof (delete_body_no_fault rm filename w Hrm) as H.
    unfold delete_index. destruct (delete_body rm filename w) as [r w'].
    cbn in *. subst r. eexists. split; reflexivity.
Qed.

(** ** The formatting loop and the engine's indices *)

(** An index at or beyond [len(chunk_ids)] is skipped (its position still
    counts for the ranks that follow). *)
Lemma format_results_drops_large (md : IndexMetadata Meta) (i : Z)
    (score : Score) (idx : Z) (rest : list (Score * Z)) :
  len (chunk_ids md) <= idx ->
  format_results md i ((score, idx) :: rest) = format_results md (i + 1) rest.
Proof.
  intros H. cbn [format_results].
  assert (Hlt : (idx <? len (chunk_ids md)) = false) by lia.
  now rewrite Hlt.
Qed.

Lemma py_index_valid {A : Type} (l : list A) (i : Z) :
  0 <= i < len l -> exists x, py_index l i = Ok x /\ l !! Z.to_nat i = Some x.
Proof.
  unfold py_index, len. intros [H0 H1].
  assert (Hn : (i <? 0) = false) by lia. rewrite Hn, Hn.
  destruct (l !! Z.to_nat i) as [x|] eqn:Hx; [eauto|].
  apply lookup_ge_None in Hx. lia.
Qed.

(** When the two metadata sequences have the same length, rows with valid
    indices are all kept, in order, and nothing is raised. *)
Lemma format_results_valid (md : IndexMetadata Meta) (rows : list (Score * Z)) :
  length (chunk_metadata md) = length (chunk_ids md) ->
  Forall (fun row => 0 <= snd row < len (chunk_ids md)) rows ->
  forall i, exists hits,
    format_results md i rows = Ok hits /\
    length hits = length rows /\
    map (fun h => Some (hit_chunk_id h)) hits
    = map (fun row => chunk_ids md !! Z.to_nat (snd row)) rows.
Proof.
  intros Hlen Hall. induction Hall as [|[score idx] rows Hrow _ IH]; intros i.
  - exists []. now cbn.
  - cbn [snd] in Hrow. cbn [format_results].
    assert (Hlt : (idx <? len (chunk_ids md)) = true) by lia. rewrite Hlt.
    destruct (py_index_valid (chunk_ids md) idx Hrow) as (cid & -> & Hcid).
    assert (Hrow' : 0 <= idx < len (chunk_metadata md)) by (unfold len in *; lia).
    destruct (py_index_valid (chunk_metadata md) idx Hrow') as (m & -> & _).
    destruct (IH (i + 1)) as (hits & -> & Hl & Hm).
    eexists. split; [reflexivity|]. cbn. rewrite Hl, Hm, Hcid. now split.
Qed.

(** On a collection without chunks the loop keeps no row with a
    non-negative index, whatever the engine returns. *)
Lemma format_results_no_chunks (md : IndexMetadata Meta) (rows : list (Score * Z)) :
  chunk_ids md = [] ->
  Forall (fun row => 0 <= snd row) rows ->
  forall i, format_results md i rows = Ok [].
Proof.
  intros Hids Hall. induction Hall as [|[score idx] rows Hrow _ IH]; intros i;
    [reflexivity|].
  cbn [snd] in Hrow. rewrite format_results_drops_large; [apply IH|].
  rewrite Hids. unfold len. cbn. lia.
Qed.

(** C3: a negative index coming back from the engine.  The loop only tests
    [idx < len(chunk_ids)], and Python indexing counts a negative index
    from the end: on a two-chunk collection the row [(score, -1)] is not
    dropped but surfaced as chunk [c2] with its metadata. *)
Theorem negative_index_is_surfaced (score : Score) (m1 m2 : Meta) :
  format_results
    {| md_filename := "doc"; chunk_count := 2; chunk_ids := ["c1"; "c2"];
       chunk_metadata := [m1; m2]; created_at := "t0"; corpus_size := 2 |}
    0 [(score, -1)]
  = Ok [{| rank := 1; hit_chunk_id := "c2"; hit_score := score;
           hit_metadata := m2 |}].
Proof. reflexivity. Qed.

End ServiceFacts.

(** * The engine of the specification behind the service *)

Section SpecEngineFacts.
Context {ScoreT : Type}.
Variable score : SpecEngine.Artifact -> list string -> nat -> ScoreT.
Variable score_leb : ScoreT -> ScoreT -> bool.

Local Abbreviation SE := (SpecEngine.engine score score_leb).
Local Abbreviation retrieve := (SpecEngine.retrieve score score_leb).
Local Abbreviation insert_ranked := (SpecEngine.insert_ranked score_leb).
Local Abbreviation sort_ranked := (SpecEngine.sort_ranked score_leb).

Lemma insert_ranked_perm (x : nat * ScoreT) (l : list (nat * ScoreT)) :
  Permutation (insert_ranked x l) (x :: l).
Proof.
  induction l as [|y l IH]; cbn; [reflexivity|].
  destruct (SpecEngine.ranks_before score_leb x y); [reflexivity|].
  rewrite IH. apply perm_swap.
Qed.

Lemma sort_ranked_perm (l : list (nat * ScoreT)) : Permutation (sort_ranked l) l.
Proof.
  induction l as [|x l IH]; cbn; [reflexivity|].
  rewrite insert_ranked_perm. now constructor.
Qed.

Lemma scored_indices (a : SpecEngine.Artifact) (q : list string) :
  map fst (SpecEngine.scored score a q) = seq 0 (SpecEngine.corpus_size a).
Proof.
  unfold SpecEngine.scored. rewrite map_map. cbn. apply map_id.
Qed.

Lemma sorted_indices (a : SpecEngine.Artifact) (q : list string) :
  Permutation (map fst (sort_ranked (SpecEngine.scored score a q)))
              (seq 0 (SpecEngine.corpus_size a)).
Proof.
  rewrite <- (scored_indices a q). apply Permutation_map, sort_ranked_perm.
Qed.

(** C4: [retrieve] never returns more than [k] results, every result is a
    document of the corpus, and with [k] at least the corpus size the
    results are all the documents of the corpus, each once. *)
Theorem retrieve_at_most_k (a : SpecEngine.Artifact) (q : list string) (k : nat) :
  (length (retrieve a q k) <= k)%nat /\
  Forall (fun h => (fst h < SpecEngine.corpus_size a)%nat) (retrieve a q k) /\
  ((SpecEngine.corpus_size a <= k)%nat ->
   Permutation (map fst (retrieve a q k)) (seq 0 (SpecEngine.corpus_size a))).
Proof.
  unfold SpecEngine.retrieve.
  pose proof (sorted_indices a q) as Hp.
  split; [|split].
  - rewrite length_take. lia.
  - apply Forall_forall. intros h Hh.
    assert (Hin : In (fst h) (map fst (sort_ranked (SpecEngine.scored score a q)))).
    { apply in_map.
      rewrite <- (take_drop k (sort_ranked (SpecEngine.scored score a q))).
      apply in_or_app. left. now apply list_elem_of_In. }
    eapply Permutation_in in Hin; [|exact Hp].
    apply in_seq in Hin. lia.
  - intros Hk. rewrite take_ge; [exact Hp|].
    apply Permutation_length in Hp.
    rewrite length_map, length_seq in Hp. lia.
Qed.

(** The service on top of this engine: after a create that builds, a search
    with [top_k >= 0] answers with at most [top_k] results, and with all
    chunks of the collection once [top_k] reaches their number. *)
Lemma search_after_create_counts {Meta : Type} (chunks : list (ChunkData Meta))
    (filename : string) (now : string) (fault : SaveFault) (w : @World Meta SE)
    (query : string) (top_k : Z) :
  0 <= top_k ->
  exists results,
    @search_index Meta SE query filename top_k
      (snd (@create_index Meta SE chunks filename true now fault w))
    = (Ok (RSearch query filename results (len results)),
       snd (@create_index Meta SE chunks filename true now fault w)) /\
    len results <= top_k /\
    (len chunks <= top_k -> len results = len chunks).
Proof.
  intros Hk.
  rewrite (@create_index_builds Meta SE chunks filename true now fault w
             (SpecEngine.build (map SpecEngine.tokenize (map cd_text chunks)))
             eq_refl (or_introl eq_refl)).
  cbn [snd].
  erewrite search_index_ready;
    [| rewrite save_mgr; cbn; apply lookup_insert_eq
     | rewrite save_mgr; cbn; apply lookup_insert_eq].
  unfold search_ready. cbn [bm25s_retrieve SE SpecEngine.engine].
  assert (Hneg : (top_k <? 0) = false) by lia. rewrite Hneg.
  set (a := SpecEngine.build (map SpecEngine.tokenize (map cd_text chunks))).
  set (q := SpecEngine.tokenize query).
  destruct (retrieve_at_most_k a q (Z.to_nat top_k)) as (Hle & Hvalid & Hall).
  assert (Hn : SpecEngine.corpus_size a = length chunks)
    by (unfold a, SpecEngine.corpus_size; cbn; now rewrite !length_map).
  set (hits := retrieve a q (Z.to_nat top_k)) in *.
  set (md := {| md_filename := filename; chunk_count := len chunks;
                chunk_ids := map cd_id chunks;
                chunk_metadata := map cd_metadata chunks;
                created_at := now; corpus_size := len (map cd_text chunks) |}).
  assert (Hrows : length (combine (map snd hits)
                            (map (fun h => Z.of_nat (fst h)) hits)) = length hits).
  { rewrite length_combine, !length_map. lia. }
  assert (Hsame : length (chunk_metadata md) = length (chunk_ids md))
    by (cbn; now rewrite !length_map).
  assert (Hidx : Forall (fun row : ScoreT * Z => 0 <= snd row < len (chunk_ids md))
                   (combine (map snd hits) (map (fun h => Z.of_nat (fst h)) hits))).
  { apply Forall_forall. intros [s idx] Hin. apply list_elem_of_In in Hin.
    apply in_combine_r in Hin. apply in_map_iff in Hin as (h & <- & Hh).
    rewrite Forall_forall in Hvalid. apply list_elem_of_In in Hh.
    specialize (Hvalid h Hh). cbn. unfold len. rewrite length_map. lia. }
  destruct (@format_results_valid Meta SE md _ Hsame Hidx 0)
    as (results & Hres & Hlen & _).
  cbn [Score SE SpecEngine.engine] in Hres |- *. rewrite Hres.
  exists results. split; [reflexivity|].
  assert (Hfin : length results = length hits) by exact (eq_trans Hlen Hrows).
  unfold len in *. rewrite Hfin. split; [lia|].
  intros Hbig.
  assert (Hc : (SpecEngine.corpus_size a <= Z.to_nat top_k)%nat) by lia.
  apply Hall, Permutation_length in Hc.
  rewrite length_map, length_seq in Hc. lia.
Qed.

Lemma retrieve_empty (q : list string) (k : nat) :
  retrieve (SpecEngine.build []) q k = [].
Proof. unfold SpecEngine.retrieve. cbn. apply take_nil. Qed.

(** C8: with the engine of the specification, creating a collection from an
    empty chunk list answers "indexed" with zero chunks, the stored
    metadata has [corpus_size = 0], and every search of the collection with
    a non-negative [top_k] answers with an empty result list and leaves the
    state as it is. *)
Theorem empty_corpus_create_then_search {Meta : Type} (filename : string)
    (replace_existing : bool) (now : string) (fault : SaveFault)
    (w : @World Meta SE) :
  replace_existing = true \/ indices (mgr w) !! filename = None ->
  exists w' md,
    @create_index Meta SE [] filename replace_existing now fault w
    = (Ok (RIndexed filename 0 now), w') /\
    metadata (mgr w') !! filename = Some md /\
    corpus_size md = 0 /\
    forall (query : string) (top_k : Z),
      0 <= top_k ->
      @search_index Meta SE query filename top_k w'
      = (Ok (RSearch query filename [] 0), w').
Proof.
  intros Hguard.
  pose proof (@create_index_builds Meta SE [] filename replace_existing now fault w
                (SpecEngine.build []) eq_refl Hguard) as Hc.
  cbn zeta in Hc. eexists _, _. split; [exact Hc|].
  split; [rewrite save_mgr; cbn; apply lookup_insert_eq|].
  split; [reflexivity|].
  intros query top_k Hk.
  erewrite search_index_ready;
    [| rewrite save_mgr; cbn; apply lookup_insert_eq
     | rewrite save_mgr; cbn; apply lookup_insert_eq].
  unfold search_ready. cbn [bm25s_retrieve SE SpecEngine.engine].
  assert (Hneg : (top_k <? 0) = false) by lia. rewrite Hneg.
  rewrite retrieve_empty. reflexivity.
Qed.

End SpecEngineFacts.

(** * Concrete cases *)

Module Cases.
Import Examples.

#[local] Existing Instance SpecEngine.overlap_engine.

(** The example of the specification: query [cat], [top_k = 1], ranks [c1]. *)
Example search_cat_top1 :
  fst (search_index "cat" "doc" 1 indexed)
  = Ok (RSearch "cat" "doc"
          [{| rank := 1; hit_chunk_id := "c1"; hit_score := 1;
              hit_metadata := "meta of c1" |}] 1).
Proof. reflexivity. Qed.

(** C1 at a concrete input: a fresh service, a name never created. *)
Lemma search_unknown_collection_witness :
  indices (mgr fresh) !! "never-created" = None /\
  disk fresh !! index_path fresh "never-created" = None /\
  exists detail,
    search_index "cat" "never-created" 10 fresh
    = (Raise (HTTPException 500 detail), fresh).
Proof.
  split; [reflexivity|]. split; [reflexivity|].
  apply (search_unknown_collection_status "cat" "never-created" 10 fresh);
    reflexivity.
Defined.

Example search_unknown_collection_detail :
  fst (search_index "cat" "never-created" 10 fresh)
  = Raise (HTTPException 500
             "Search failed: 404: Index not found for filename: never-created").
Proof. reflexivity. Qed.

(** C2 (as stated) fails for a collection that is on disk only: after a
    restart, [create_index] with [replace_existing = false] does not answer
    "exists" but rebuilds, overwrites the stored metadata, and the same
    search answers differently afterwards. *)
Lemma create_without_replace_overwrites_persisted :
  indices (mgr restarted) !! "doc" = None /\
  fst (_load_index_from_disk "doc" restarted) = true /\
  fst (create_index [chunk "n1" "a bird flew"] "doc" false "t1" NoFault restarted)
  = Ok (RIndexed "doc" 1 "t1") /\
  disk (snd (create_index [chunk "n1" "a bird flew"] "doc" false "t1" NoFault
               restarted)) !! metadata_path restarted "doc"
  <> disk restarted !! metadata_path restarted "doc" /\
  fst (search_index "cat" "doc" 1
         (snd (create_index [chunk "n1" "a bird flew"] "doc" false "t1" NoFault
                 restarted)))
  <> fst (search_index "cat" "doc" 1 restarted).
Proof.
  split; [reflexivity|]. split; [reflexivity|]. split; [reflexivity|].
  split.
  - assert (H1 : disk (snd (create_index [chunk "n1" "a bird flew"] "doc" false "t1"
                              NoFault restarted)) !! metadata_path restarted "doc"
                 = Some (JsonFile {| md_filename := "doc"; chunk_count := 1;
                                     chunk_ids := ["n1"];
                                     chunk_metadata := ["meta of n1"];
                                     created_at := "t1"; corpus_size := 1 |}))
      by reflexivity.
    assert (H2 : disk restarted !! metadata_path restarted "doc"
                 = Some (JsonFile pets_metadata)) by reflexivity.
    rewrite H1, H2. unfold pets_metadata. intros H. discriminate H.
  - assert (H1 : fst (search_index "cat" "doc" 1
                        (snd (create_index [chunk "n1" "a bird flew"] "doc" false
                                "t1" NoFault restarted)))
                 = Ok (RSearch "cat" "doc"
                         [{| rank := 1; hit_chunk_id := "n1"; hit_score := 0;
                             hit_metadata := "meta of n1" |}] 1))
      by reflexivity.
    assert (H2 : fst (search_index "cat" "doc" 1 restarted)
                 = Ok (RSearch "cat" "doc"
                         [{| rank := 1; hit_chunk_id := "c1"; hit_score := 1;
                             hit_metadata := "meta of c1" |}] 1))
      by reflexivity.
    rewrite H1, H2. intros H. discriminate H.
Qed.

Lemma create_without_replace_witness :
  is_Some (indices (mgr indexed) !! "doc") /\
  exists r,
    create_index [chunk "n1" "a bird flew"] "doc" false "t1" NoFault indexed
    = (Ok r, indexed) /\
    status r = "exists"%string /\
    forall query f top_k,
      search_index query f top_k
        (snd (create_index [chunk "n1" "a bird flew"] "doc" false "t1" NoFault indexed))
      = search_index query f top_k indexed.
Proof.
  assert (H : is_Some (indices (mgr indexed) !! "doc"))
    by (vm_compute; eexists; reflexivity).
  split; [exact H|].
  exact (create_without_replace_keeps_loaded
           [chunk "n1" "a bird flew"] "doc" "t1" NoFault indexed H).
Defined.

(** C5 (as stated) fails: an artifact of two documents next to metadata
    that describes one chunk is loaded, and the load reports success. *)
Lemma load_accepts_mismatched_pair :
  disk mismatched !! index_path mismatched "doc" = Some (PickleFile mismatched_artifact) /\
  disk mismatched !! metadata_path mismatched "doc" = Some (JsonFile mismatched_metadata) /\
  num_docs mismatched_artifact = 2 /\
  corpus_size mismatched_metadata = 1 /\
  chunk_count mismatched_metadata = 1 /\
  fst (_load_index_from_disk "doc" mismatched) = true.
Proof. repeat split; reflexivity. Qed.

Lemma create_survives_save_failure_witness :
  bm25s_index (map cd_text pets)
  = Ok (SpecEngine.build (map SpecEngine.tokenize (map cd_text pets))) /\
  (true = true \/ indices (mgr fresh) !! "doc" = None) /\
  exists resp w' md,
    create_index pets "doc" true "t0" DumpIndexFails fresh = (Ok resp, w') /\
    status resp = "indexed"%string /\
    indices (mgr w') !! "doc"
    = Some (SpecEngine.build (map SpecEngine.tokenize (map cd_text pets))) /\
    metadata (mgr w') !! "doc" = Some md /\
    chunk_ids md = map cd_id pets /\
    chunk_metadata md = map cd_metadata pets /\
    forall query top_k,
      search_index query "doc" top_k w'
      = (reraise_500 "Search failed: "
           (search_ready
              (SpecEngine.build (map SpecEngine.tokenize (map cd_text pets)))
              md query "doc" top_k), w').
Proof.
  split; [reflexivity|]. split; [left; reflexivity|].
  apply (create_survives_save_failure pets "doc" true "t0" DumpIndexFails fresh
           (SpecEngine.build (map SpecEngine.tokenize (map cd_text pets))));
    [reflexivity | left; reflexivity].
Defined.

Lemma empty_corpus_witness :
  (true = true \/ indices (mgr fresh) !! "empty" = None) /\
  exists w' md,
    create_index [] "empty" true "t0" NoFault fresh
    = (Ok (RIndexed "empty" 0 "t0"), w') /\
    metadata (mgr w') !! "empty" = Some md /\
    corpus_size md = 0 /\
    forall (query : string) (top_k : Z),
      0 <= top_k ->
      search_index query "empty" top_k w' = (Ok (RSearch query "empty" [] 0), w').
Proof.
  split; [left; reflexivity|].
  apply (empty_corpus_create_then_search SpecEngine.overlap_score Z.leb
           "empty" true "t0" NoFault fresh).
  left; reflexivity.
Defined.

End Cases.

(** * More on storage paths *)

Module StoragePaths.
Import Paths PathFacts.

Lemma no_separator_append (s t : string) :
  no_separator (String.append s t) = (no_separator s && no_separator t)%bool.
Proof.
  induction s as [|c s IH]; [reflexivity|].
  change (String.append (String c s) t) with (String c (String.append s t)).
  cbn [no_separator]. rewrite IH. now rewrite !andb_assoc.
Qed.

Lemma safe_filename_no_separator (s : string) :
  no_separator (safe_filename s) = true.
Proof.
  induction s as [|c s IH]; [reflexivity|].
  unfold safe_filename in *. cbn [replace_char no_separator]. rewrite IH.
  destruct (Ascii.eqb_spec c slash) as [->|Hs]; [reflexivity|].
  destruct (Ascii.eqb_spec c backslash) as [->|Hb]; [reflexivity|].
  apply Ascii.eqb_neq in Hs, Hb. now rewrite Hs, Hb.
Qed.

(** Both files of a collection are direct children of the storage
    directory: the path is the directory (with its separator) followed by
    a file name that contains neither a slash nor a backslash, whatever the
    collection name is. *)
Theorem storage_files_stay_in_directory (sp filename : string) :
  exists leaf_index leaf_metadata,
    _get_index_path sp filename = String.append (join_prefix sp) leaf_index /\
    _get_metadata_path sp filename = String.append (join_prefix sp) leaf_metadata /\
    no_separator leaf_index = true /\
    no_separator leaf_metadata = true.
Proof.
  exists (String.append (safe_filename filename) index_suffix),
         (String.append (safe_filename filename) metadata_suffix).
  unfold _get_index_path, _get_metadata_path.
  rewrite !path_join_relative by now apply safe_not_absolute.
  rewrite !no_separator_append, safe_filename_no_separator.
  repeat split; reflexivity.
Qed.

(** The artifact file of a collection is never the metadata file of any
    collection, the same or another. *)
Theorem index_path_never_metadata_path (sp a b : string) :
  _get_index_path sp a <> _get_metadata_path sp b.
Proof.
  unfold _get_index_path, _get_metadata_path.
  rewrite !path_join_relative by now apply safe_not_absolute.
  intros H. apply String.app_inj in H.
  apply (f_equal list_ascii_of_string) in H.
  rewrite !list_ascii_of_append in H.
  apply app_inj_2 in H; [|reflexivity].
  destruct H as [_ H]. discriminate H.
Qed.

Lemma safe_char_eq (c d : ascii) :
  (if Ascii.eqb (if Ascii.eqb c slash then underscore else c) backslash
   then underscore else (if Ascii.eqb c slash then underscore else c))
  = (if Ascii.eqb (if Ascii.eqb d slash then underscore else d) backslash
     then underscore else (if Ascii.eqb d slash then underscore else d))
  <-> c = d \/ (separator_like c = true /\ separator_like d = true).
Proof.
  unfold separator_like.
  destruct (Ascii.eqb_spec c slash) as [->|Hc1];
    destruct (Ascii.eqb_spec d slash) as [->|Hd1]; cbn.
  - split; [now left | reflexivity].
  - destruct (Ascii.eqb_spec d backslash) as [->|Hd2]; cbn.
    + split; [now right | reflexivity].
    + destruct (Ascii.eqb_spec d underscore) as [->|Hd3]; cbn.
      * split; [now right | reflexivity].
      * split; [congruence | intros [H|[_ H]]; congruence].
  - destruct (Ascii.eqb_spec c backslash) as [->|Hc2]; cbn.
    + split; [now right | reflexivity].
    + destruct (Ascii.eqb_spec c underscore) as [->|Hc3]; cbn.
      * split; [now right | reflexivity].
      * split; [congruence | intros [H|[H _]]; congruence].
  - destruct (Ascii.eqb_spec c backslash) as [->|Hc2];
      destruct (Ascii.eqb_spec d backslash) as [->|Hd2]; cbn.
    + split; [now left | reflexivity].
    + destruct (Ascii.eqb_spec d underscore) as [->|Hd3]; cbn.
      * split; [now right | reflexivity].
      * split; [congruence | intros [H|[_ H]]; congruence].
    + destruct (Ascii.eqb_spec c underscore) as [->|Hc3]; cbn.
      * split; [now right | reflexivity].
      * split; [congruence | intros [H|[H _]]; congruence].
    + destruct (Ascii.eqb_spec c underscore) as [->|Hc3];
        destruct (Ascii.eqb_spec d underscore) as [->|Hd3]; cbn.
      * split; [now left | reflexivity].
      * split; [congruence | intros [H|[_ H]]; congruence].
      * split; [congruence | intros [H|[H _]]; congruence].
      * split; [now left | intros [H|[H _]]; congruence].
Qed.

Lemma safe_filename_eq (a b : string) :
  safe_filename a = safe_filename b <->
  Forall2 (fun c d => c = d \/ (separator_like c = true /\ separator_like d = true))
          (list_ascii_of_string a) (list_ascii_of_string b).
Proof.
  revert b. induction a as [|c a IH]; intros [|d b]; cbn.
  - split; [constructor | reflexivity].
  - split; [discriminate | intros H; inversion H].
  - split; [discriminate | intros H; inversion H].
  - unfold safe_filename in *. cbn [replace_char]. split.
    + intros H. injection H as Hc Hs. constructor.
      * now apply safe_char_eq.
      * now apply IH.
    + intros H. inversion H as [|? ? ? ? Hc Hs]; subst. f_equal.
      * now apply safe_char_eq.
      * now apply IH.
Qed.

(** Exactly which collection names collide on disk: two names get the same
    artifact file (and the same metadata file) if and only if they have the
    same length and, position by position, either the same character or two
    characters among slash, backslash and underscore. *)
Theorem storage_collision_iff (sp a b : string) :
  (_get_index_path sp a = _get_index_path sp b <->
   Forall2 (fun c d => c = d \/ (separator_like c = true /\ separator_like d = true))
           (list_ascii_of_string a) (list_ascii_of_string b)) /\
  (_get_metadata_path sp a = _get_metadata_path sp b <->
   _get_index_path sp a = _get_index_path sp b).
Proof.
  split.
  - rewrite index_path_eq. apply safe_filename_eq.
  - now rewrite index_path_eq, metadata_path_eq.
Qed.

End StoragePaths.

(** * Persistence, restarts and failed writes *)

Section Persistence.
Context {Meta : Type} {E : BM25S}.
Implicit Types (w : World Meta) (filename query : string) (top_k : Z).

Lemma index_path_differs w filename g :
  index_path w filename <> metadata_path w g.
Proof.
  unfold index_path, metadata_path, Paths._get_index_path, Paths._get_metadata_path.
  rewrite !PathFacts.path_join_relative by now apply PathFacts.safe_not_absolute.
  intros H. apply String.app_inj in H.
  apply (f_equal list_ascii_of_string) in H.
  rewrite !PathFacts.list_ascii_of_append in H.
  apply app_inj_2 in H; [|reflexivity].
  destruct H as [_ H]. discriminate H.
Qed.

Lemma save_paths (fault : SaveFault) filename (r : Retriever)
    (md : IndexMetadata Meta) w g :
  index_path (_save_index_to_disk fault filename r md w) g = index_path w g /\
  metadata_path (_save_index_to_disk fault filename r md w) g = metadata_path w g.
Proof. unfold index_path, metadata_path. now rewrite save_mgr. Qed.

Lemma load_present filename w (r : Retriever) (md : IndexMetadata Meta) :
  disk w !! index_path w filename = Some (PickleFile r) ->
  disk w !! metadata_path w filename = Some (JsonFile md) ->
  _load_index_from_disk filename w
  = (true, set_mgr w (install filename r md (mgr w))).
Proof. intros Hi Hm. unfold _load_index_from_disk. now rewrite Hi, Hm. Qed.

Lemma load_undecodable filename w :
  disk w !! index_path w filename = Some Garbage \/
  disk w !! metadata_path w filename = Some Garbage ->
  _load_index_from_disk filename w = (false, w).
Proof.
  unfold _load_index_from_disk. intros [H|H]; rewrite H.
  - now destruct (disk w !! metadata_path w filename).
  - destruct (disk w !! index_path w filename) as [[| |]|]; reflexivity.
Qed.

Lemma saved_files filename (r : Retriever) (md : IndexMetadata Meta) w :
  disk (_save_index_to_disk NoFault filename r md w) !! index_path w filename
  = Some (PickleFile r) /\
  disk (_save_index_to_disk NoFault filename r md w) !! metadata_path w filename
  = Some (JsonFile md).
Proof.
  cbn. split.
  - rewrite lookup_insert_ne by (intros H; symmetry in H; revert H; apply index_path_differs).
    apply lookup_insert_eq.
  - apply lookup_insert_eq.
Qed.

(** Round trip through the storage directory: what [_save_index_to_disk]
    wrote without a fault, [_load_index_from_disk] reads back and installs
    unchanged, in the running process and in one restarted on the same
    directory. *)
Theorem save_then_load filename (r : Retriever) (md : IndexMetadata Meta) w :
  _load_index_from_disk filename (_save_index_to_disk NoFault filename r md w)
  = (true,
     set_mgr (_save_index_to_disk NoFault filename r md w)
       (install filename r md (mgr w))) /\
  _load_index_from_disk filename
    (restart (_save_index_to_disk NoFault filename r md w))
  = (true,
     set_mgr (restart (_save_index_to_disk NoFault filename r md w))
       (install filename r md
          (mgr (restart (_save_index_to_disk NoFault filename r md w))))).
Proof.
  destruct (saved_files filename r md w) as [Hi Hm]. split.
  - erewrite load_present.
    + now rewrite save_mgr.
    + destruct (save_paths NoFault filename r md w filename) as [-> _]. exact Hi.
    + destruct (save_paths NoFault filename r md w filename) as [_ ->]. exact Hm.
  - apply load_present; [exact Hi | exact Hm].
Qed.

Lemma search_index_absent query filename top_k w :
  indices (mgr w) !! filename = None ->
  fst (_load_index_from_disk filename w) = false ->
  search_index query filename top_k w
  = (Raise (HTTPException 500
              (String.append "Search failed: "
                 (exc_str (HTTPException 404
                    (String.append "Index not found for filename: " filename))))), w).
Proof.
  intros Hi Hl. unfold search_index, search_body.
  rewrite bool_decide_eq_false_2 by (rewrite Hi; intros [? ?]; discriminate).
  destruct (load_cases filename w) as [(r & md & _ & _ & Heq)|[_ Heq]];
    rewrite Heq in *; [discriminate|].
  cbn [snd]. now rewrite Hi.
Qed.

Lemma search_index_loads query filename top_k w (r : Retriever)
    (md : IndexMetadata Meta) :
  indices (mgr w) !! filename = None ->
  disk w !! index_path w filename = Some (PickleFile r) ->
  disk w !! metadata_path w filename = Some (JsonFile md) ->
  search_index query filename top_k w
  = (reraise_500 "Search failed: " (search_ready r md query filename top_k),
     set_mgr w (install filename r md (mgr w))).
Proof.
  intros Hi Hdi Hdm. unfold search_index, search_body.
  rewrite bool_decide_eq_false_2 by (rewrite Hi; intros [? ?]; discriminate).
  rewrite (load_present filename w r md Hdi Hdm). cbn [snd set_mgr mgr install indices metadata].
  now rewrite !lookup_insert_eq.
Qed.

(** Lazy load: a search of a collection that is not in memory but whose two
    files are in the storage directory installs that pair in the registry
    and answers from it, whether or not the retrieval then succeeds; the
    storage directory is not written. *)
Theorem search_lazy_load query filename top_k w (r : Retriever)
    (md : IndexMetadata Meta) :
  indices (mgr w) !! filename = None ->
  disk w !! index_path w filename = Some (PickleFile r) ->
  disk w !! metadata_path w filename = Some (JsonFile md) ->
  fst (search_index query filename top_k w)
  = reraise_500 "Search failed: " (search_ready r md query filename top_k) /\
  indices (mgr (snd (search_index query filename top_k w))) !! filename = Some r /\
  metadata (mgr (snd (search_index query filename top_k w))) !! filename = Some md /\
  disk (snd (search_index query filename top_k w)) = disk w.
Proof.
  intros Hi Hdi Hdm. rewrite (search_index_loads _ _ _ _ r md Hi Hdi Hdm).
  cbn. now rewrite !lookup_insert_eq.
Qed.

(** Save, restart, search: after a create whose two disk writes succeeded,
    a process restarted on the same directory answers every search of the
    collection exactly as the process that built it. *)
Theorem search_after_restart (chunks : list (ChunkData Meta)) filename
    (replace_existing : bool) (now : string) w (r : Retriever) query top_k :
  bm25s_index (map cd_text chunks) = Ok r ->
  replace_existing = true \/ indices (mgr w) !! filename = None ->
  fst (search_index query filename top_k
         (restart (snd (create_index chunks filename replace_existing now NoFault w))))
  = fst (search_index query filename top_k
           (snd (create_index chunks filename replace_existing now NoFault w))).
Proof.
  intros Hb Hg.
  rewrite (create_index_builds chunks filename replace_existing now NoFault w r Hb Hg).
  cbn [snd].
  set (md := {| md_filename := filename; chunk_count := len chunks;
                chunk_ids := map cd_id chunks;
                chunk_metadata := map cd_metadata chunks;
                created_at := now; corpus_size := len (map cd_text chunks) |}).
  set (w1 := set_mgr w (install filename r md (mgr w))).
  destruct (saved_files filename r md w1) as [Hi Hm].
  rewrite (search_index_ready query filename top_k
             (_save_index_to_disk NoFault filename r md w1) r md);
    [| rewrite save_mgr; cbn; apply lookup_insert_eq
     | rewrite save_mgr; cbn; apply lookup_insert_eq].
  rewrite (search_index_loads query filename top_k
             (restart (_save_index_to_disk NoFault filename r md w1)) r md);
    [reflexivity | reflexivity | exact Hi | exact Hm].
Qed.

(** A create whose metadata file cannot be opened for writing has already
    replaced the artifact file: the directory then holds the new artifact
    next to the metadata of the previous build, and a restarted process
    loads that mixed pair as if it were a valid collection. *)
Theorem interrupted_save_mixes_builds (chunks : list (ChunkData Meta)) filename
    (replace_existing : bool) (now : string) w (r : Retriever)
    (md_old : IndexMetadata Meta) :
  bm25s_index (map cd_text chunks) = Ok r ->
  replace_existing = true \/ indices (mgr w) !! filename = None ->
  disk w !! metadata_path w filename = Some (JsonFile md_old) ->
  _load_index_from_disk filename
    (restart (snd (create_index chunks filename replace_existing now
                     OpenMetadataFails w)))
  = (true,
     set_mgr (restart (snd (create_index chunks filename replace_existing now
                              OpenMetadataFails w)))
       (install filename r md_old
          (mgr (restart (snd (create_index chunks filename replace_existing now
                                OpenMetadataFails w)))))).
Proof.
  intros Hb Hg Hold.
  rewrite (create_index_builds chunks filename replace_existing now
             OpenMetadataFails w r Hb Hg).
  cbn [snd]. apply load_present.
  - cbn. apply lookup_insert_eq.
  - cbn. rewrite lookup_insert_ne; [exact Hold|].
    apply (index_path_differs w filename filename).
Qed.

(** A create whose dump of either file fails leaves a file that cannot be
    decoded: after a restart the collection cannot be loaded and a search
    of it fails with status 500, even if a complete earlier build of the
    same collection had been stored. *)
Theorem failed_dump_loses_collection (chunks : list (ChunkData Meta)) filename
    (replace_existing : bool) (now : string) (fault : SaveFault) w
    (r : Retriever) query top_k :
  bm25s_index (map cd_text chunks) = Ok r ->
  replace_existing = true \/ indices (mgr w) !! filename = None ->
  fault = DumpIndexFails \/ fault = DumpMetadataFails ->
  fst (_load_index_from_disk filename
         (restart (snd (create_index chunks filename replace_existing now fault w))))
  = false /\
  exists detail,
    fst (search_index query filename top_k
           (restart (snd (create_index chunks filename replace_existing now fault w))))
    = Raise (HTTPException 500 detail).
Proof.
  intros Hb Hg Hf.
  rewrite (create_index_builds chunks filename replace_existing now fault w r Hb Hg).
  cbn [snd].
  match goal with
  | |- context [restart ?x] => set (w2 := restart x)
  end.
  assert (Hl : _load_index_from_disk filename w2 = (false, w2)).
  { apply load_undecodable. destruct Hf as [-> | ->]; cbn.
    - left. apply lookup_insert_eq.
    - right. apply lookup_insert_eq. }
  split; [now rewrite Hl|].
  rewrite search_index_absent; [eexists; reflexivity | reflexivity | now rewrite Hl].
Qed.

(** Once a collection is in memory a search of it never looks at the
    storage directory: two states with the same registry give the same
    answer, whatever their disks hold. *)
Theorem search_in_memory_ignores_disk query filename top_k (w1 w2 : World Meta) :
  mgr w1 = mgr w2 ->
  is_Some (indices (mgr w1) !! filename) ->
  fst (search_index query filename top_k w1)
  = fst (search_index query filename top_k w2) /\
  snd (search_index query filename top_k w1) = w1.
Proof.
  intros Hm Hin. unfold search_index, search_body.
  rewrite <- Hm. rewrite bool_decide_eq_true_2 by exact Hin.
  rewrite <- Hm.
  destruct (indices (mgr w1) !! filename) as [r|]; [|now destruct Hin].
  destruct (metadata (mgr w1) !! filename); now split.
Qed.

(** [create_index] is all or nothing: it either answers normally or fails
    with status 500 having changed neither the registry nor the storage
    directory. *)
Theorem create_fails_without_effect (chunks : list (ChunkData Meta)) filename
    (replace_existing : bool) (now : string) (fault : SaveFault) w :
  (exists resp w', create_index chunks filename replace_existing now fault w
                   = (Ok resp, w')) \/
  (exists detail, create_index chunks filename replace_existing now fault w
                  = (Raise (HTTPException 500 detail), w)).
Proof.
  unfold create_index, create_body.
  destruct (negb replace_existing
            && bool_decide (is_Some (indices (mgr w) !! filename)))%bool;
    [left; eauto|].
  destruct (bm25s_index (map cd_text chunks)) as [r|e]; cbn; [left|right]; eauto.
Qed.

End Persistence.

(** * Isolation between collections *)

Section Isolation.
Context {Meta : Type} {E : BM25S}.
Implicit Types (w : World Meta) (filename query : string) (top_k : Z).

Lemma guarded_delete_other {V : Type} (k g : string) (m : gmap string V) :
  g <> k ->
  (if bool_decide (is_Some (m !! k)) then delete k m else m) !! g = m !! g.
Proof.
  intros Hne. case_bool_decide; [|reflexivity]. now apply lookup_delete_ne.
Qed.

Lemma save_disk_other (fault : SaveFault) filename (r : Retriever)
    (md : IndexMetadata Meta) w (p : string) :
  p <> index_path w filename -> p <> metadata_path w filename ->
  disk (_save_index_to_disk fault filename r md w) !! p = disk w !! p.
Proof.
  intros Hi Hm. destruct fault; cbn; try reflexivity;
    repeat (rewrite lookup_insert_ne by congruence); reflexivity.
Qed.

Lemma remove_if_exists_disk_other (rm : string -> option string) (path p : string) w :
  p <> path ->
  disk (snd (remove_if_exists rm path w)) !! p = disk w !! p.
Proof.
  intros Hne. unfold remove_if_exists.
  destruct (disk w !! path); [|reflexivity].
  destruct (rm path); [reflexivity|]. cbn. now apply lookup_delete_ne.
Qed.

Lemma delete_body_disk_other (rm : string -> option string) filename w (p : string) :
  p <> index_path w filename -> p <> metadata_path w filename ->
  disk (snd (delete_body rm filename w)) !! p = disk w !! p.
Proof.
  intros Hi Hm. unfold delete_body.
  match goal with
  | |- context [remove_if_exists rm ?q ?w1] =>
      pose proof (remove_if_exists_disk_other rm q p w1 Hi) as H1;
      pose proof (remove_if_exists_mgr rm q w1) as G1;
      destruct (remove_if_exists rm q w1) as [[u|e] w2]
  end; cbn [snd] in *; [|exact H1].
  assert (Hp : metadata_path w2 filename = metadata_path w filename)
    by (unfold metadata_path; now rewrite G1).
  rewrite Hp.
  pose proof (remove_if_exists_disk_other rm (metadata_path w filename) p w2 Hm) as H2.
  destruct (remove_if_exists rm (metadata_path w filename) w2) as [[u'|e] w3];
    cbn [snd] in *; now rewrite H2, H1.
Qed.

Lemma create_index_world (chunks : list (ChunkData Meta)) filename
    (replace_existing : bool) (now : string) (fault : SaveFault) w :
  snd (create_index chunks filename replace_existing now fault w) = w \/
  exists r md,
    snd (create_index chunks filename replace_existing now fault w)
    = _save_index_to_disk fault filename r md
        (set_mgr w (install filename r md (mgr w))) /\
    chunk_ids md = map cd_id chunks /\
    chunk_metadata md = map cd_metadata chunks /\
    chunk_count md = len chunks /\
    corpus_size md = len chunks.
Proof.
  unfold create_index, create_body.
  destruct (negb replace_existing
            && bool_decide (is_Some (indices (mgr w) !! filename)))%bool;
    [now left|].
  destruct (bm25s_index (map cd_text chunks)) as [r|e]; [|now left].
  right. eexists _, _. split; [reflexivity|]. cbn.
  unfold len. rewrite length_map. repeat split; reflexivity.
Qed.

(** A request only touches its own collection: the registry entries of
    every other collection name and every file other than the two storage
    paths of the requested name are as they were, for create, search and
    delete alike, whether the request succeeds or fails. *)
Theorem request_touches_only_its_collection (req : Request Meta) w :
  storage_path (mgr (snd (step req w))) = storage_path (mgr w) /\
  (forall g, g <> request_name req ->
     indices (mgr (snd (step req w))) !! g = indices (mgr w) !! g /\
     metadata (mgr (snd (step req w))) !! g = metadata (mgr w) !! g) /\
  (forall p, p <> index_path w (request_name req) ->
     p <> metadata_path w (request_name req) ->
     disk (snd (step req w)) !! p = disk w !! p).
Proof.
  destruct req as [chunks filename replace_existing now fault
                  | query filename top_k | rm filename]; cbn [step request_name].
  - destruct (create_index_world chunks filename replace_existing now fault w)
      as [-> | (r & md & -> & _)]; [repeat split; reflexivity|].
    rewrite save_mgr. cbn. split; [reflexivity|]. split.
    + intros g Hg. now rewrite !lookup_insert_ne by congruence.
    + intros p Hi Hm. now rewrite save_disk_other.
  - rewrite search_index_world. case_bool_decide; [repeat split; reflexivity|].
    destruct (load_cases filename w) as [(r & md & _ & _ & ->)|[_ ->]];
      [|repeat split; reflexivity].
    cbn. split; [reflexivity|]. split; [|reflexivity].
    intros g Hg. now rewrite !lookup_insert_ne by congruence.
  - rewrite delete_index_world, delete_body_mgr. cbn. split; [reflexivity|]. split.
    + intros g Hg. now rewrite !guarded_delete_other.
    + intros p Hi Hm. now apply delete_body_disk_other.
Qed.

(** A search never writes to the storage directory, and it leaves the
    manager's storage path alone. *)
Theorem search_never_writes_disk query filename top_k w :
  disk (snd (search_index query filename top_k w)) = disk w /\
  storage_path (mgr (snd (search_index query filename top_k w)))
  = storage_path (mgr w).
Proof.
  rewrite search_index_world. case_bool_decide; [now split|].
  destruct (load_cases filename w) as [(r & md & _ & _ & ->)|[_ ->]]; now split.
Qed.

Lemma reraise_500_error {A : Type} (prefix : string) (r : result A) (e : Exn) :
  reraise_500 prefix r = Raise e -> exists detail, e = HTTPException 500 detail.
Proof. destruct r; cbn; intros H; [discriminate|]. injection H as <-. eauto. Qed.

(** Whatever goes wrong in a create, a search or a delete, the caller sees
    an [HTTPException] with status 500 and no other status. *)
Theorem every_failure_is_500 (req : Request Meta) w (e : Exn) :
  fst (step req w) = Raise e -> exists detail, e = HTTPException 500 detail.
Proof.
  destruct req; cbn [step]; unfold create_index, search_index, delete_index.
  - destruct (create_body _ _ _ _ _ _) as [r w']. cbn. apply reraise_500_error.
  - destruct (search_body _ _ _ _) as [r w']. cbn. apply reraise_500_error.
  - destruct (delete_body _ _ _) as [r w']. cbn. apply reraise_500_error.
Qed.

Lemma remove_if_exists_ok (rm : string -> option string) (path : string) w :
  (forall p, rm p = None) ->
  remove_if_exists rm path w = (Ok tt, set_disk w (delete path (disk w))).
Proof.
  intros Hrm. unfold remove_if_exists. rewrite Hrm.
  destruct (disk w !! path) eqn:Hp; [reflexivity|].
  rewrite delete_id by exact Hp. now destruct w.
Qed.

(** Delete really deletes: when no file removal fails, the collection is
    afterwards neither in the registry nor in the storage directory, so a
    later search of it fails and only a create brings it back. *)
Theorem delete_removes_everything (rm : string -> option string) filename w :
  (forall p, rm p = None) ->
  fst (delete_index rm filename w) = Ok (RDeleted filename) /\
  never_existed filename (snd (delete_index rm filename w)) /\
  forall query top_k, exists detail,
    fst (search_index query filename top_k (snd (delete_index rm filename w)))
    = Raise (HTTPException 500 detail).
Proof.
  intros Hrm.
  assert (Hbody : exists w',
             delete_body rm filename w = (Ok (RDeleted filename), w') /\
             never_existed filename w').
  { unfold delete_body. rewrite !remove_if_exists_ok by exact Hrm. cbn [fst snd].
    eexists. split; [reflexivity|].
    unfold never_existed, index_path, metadata_path. cbn.
    rewrite !guarded_delete_lookup.
    split; [reflexivity|]. split; [reflexivity|]. split.
    - destruct (decide (Paths._get_metadata_path (storage_path (mgr w)) filename
                        = Paths._get_index_path (storage_path (mgr w)) filename))
        as [Heq|Hne].
      + rewrite Heq. apply lookup_delete_eq.
      + rewrite lookup_delete_ne by exact Hne. apply lookup_delete_eq.
    - apply lookup_delete_eq. }
  destruct Hbody as (w' & Hb & Hn). unfold delete_index. rewrite Hb. cbn.
  split; [reflexivity|]. split; [exact Hn|].
  intros query top_k. destruct Hn as (Hi & _ & Hdi & _).
  rewrite search_index_absent; [eexists; reflexivity | exact Hi |].
  rewrite load_absent; [reflexivity | now left].
Qed.

(** After a create that built, a second create of the same name with
    [replace_existing = false] answers "exists" and changes nothing,
    whichever chunks it carries and whatever happened to the first
    create's disk writes. *)
Theorem create_then_create_without_replace
    (chunks chunks' : list (ChunkData Meta)) filename (replace_existing : bool)
    (now now' : string) (fault fault' : SaveFault) w (r : Retriever) :
  bm25s_index (map cd_text chunks) = Ok r ->
  replace_existing = true \/ indices (mgr w) !! filename = None ->
  create_index chunks' filename false now' fault'
    (snd (create_index chunks filename replace_existing now fault w))
  = (Ok (RExists filename (len chunks')
           "Index already exists and replace_existing=False"),
     snd (create_index chunks filename replace_existing now fault w)).
Proof.
  intros Hb Hg.
  rewrite (create_index_builds chunks filename replace_existing now fault w r Hb Hg).
  cbn [snd]. unfold create_index, create_body.
  rewrite bool_decide_eq_true_2; [reflexivity|].
  rewrite save_mgr. cbn. rewrite lookup_insert_eq. eauto.
Qed.

End Isolation.

(** * Shape of search results *)

Section Results.
Context {Meta : Type} {E : BM25S}.
Implicit Types (w : World Meta) (filename query : string) (top_k : Z)
  (md : IndexMetadata Meta).

Lemma py_index_elem {A : Type} (l : list A) (i : Z) (x : A) :
  py_index l i = Ok x -> x ∈ l.
Proof.
  unfold py_index.
  destruct ((if i <? 0 then i + len l else i) <? 0); [discriminate|].
  destruct (l !! Z.to_nat (if i <? 0 then i + len l else i)) as [y|] eqn:Hy;
    [|discriminate].
  intros H. injection H as <-. eapply list_elem_of_lookup_2. exact Hy.
Qed.

Lemma format_results_sound md (rows : list (Score * Z)) :
  forall (i : Z) (hits : list (SearchHit Meta)),
    format_results md i rows = Ok hits ->
    (length hits <= length rows)%nat /\
    Forall (fun h => i < rank h <= i + len rows /\
                     hit_chunk_id h ∈ chunk_ids md /\
                     hit_metadata h ∈ chunk_metadata md) hits.
Proof.
  induction rows as [|[score idx] rows IH]; intros i hits H.
  - cbn in H. injection H as <-. split; [cbn; lia | constructor].
  - cbn [format_results] in H. unfold len in *. cbn [length].
    destruct (idx <? Z.of_nat (length (chunk_ids md))).
    + destruct (py_index (chunk_ids md) idx) as [cid|] eqn:Hc; [|discriminate].
      destruct (py_index (chunk_metadata md) idx) as [m|] eqn:Hm; [|discriminate].
      destruct (format_results md (i + 1) rows) as [hits'|] eqn:Hr; [|discriminate].
      injection H as <-. destruct (IH _ _ Hr) as [Hl Hf]. split; [cbn; lia|].
      constructor.
      * cbn. split; [lia|]. split; [now apply py_index_elem in Hc
                                   | now apply py_index_elem in Hm].
      * eapply Forall_impl; [exact Hf|]. cbn. intros h (Hk & Hrest). split; [lia|exact Hrest].
    + destruct (IH _ _ H) as [Hl Hf]. split; [lia|].
      eapply Forall_impl; [exact Hf|]. cbn. intros h (Hk & Hrest). split; [lia|exact Hrest].
Qed.

Lemma format_results_ranks md (rows : list (Score * Z)) :
  forall (i : Z) (hits : list (SearchHit Meta)),
    format_results md i rows = Ok hits ->
    StronglySorted Z.lt (map rank hits).
Proof.
  induction rows as [|[score idx] rows IH]; intros i hits H.
  - cbn in H. injection H as <-. constructor.
  - cbn [format_results] in H.
    destruct (idx <? len (chunk_ids md)); [|now apply (IH (i + 1))].
    destruct (py_index (chunk_ids md) idx) as [cid|]; [|discriminate].
    destruct (py_index (chunk_metadata md) idx) as [m|]; [|discriminate].
    destruct (format_results md (i + 1) rows) as [hits'|] eqn:Hr; [|discriminate].
    injection H as <-. cbn. constructor; [now apply (IH (i + 1))|].
    apply Forall_map.
    destruct (format_results_sound md rows _ _ Hr) as [_ Hf].
    eapply Forall_impl; [exact Hf|]. cbn. intros h [Hk _]. lia.
Qed.

(** What a successful search answers, for any retriever: the results all
    carry a chunk id and a metadata value of the collection's stored
    metadata, their ranks are positions (from 1) in the rows the retriever
    returned and strictly increase, there are no more results than rows,
    and [total_results] is their number. *)
Theorem search_results_well_formed query filename top_k w
    (resp : Response Meta) (w' : World Meta) :
  search_index query filename top_k w = (Ok resp, w') ->
  exists (r : Retriever) md (scores : list Score) (idxs : list Z)
         (results : list (SearchHit Meta)),
    indices (mgr w') !! filename = Some r /\
    metadata (mgr w') !! filename = Some md /\
    bm25s_retrieve r query top_k = Ok (scores, idxs) /\
    resp = RSearch query filename results (len results) /\
    len results <= len scores /\ len results <= len idxs /\
    Forall (fun h => 1 <= rank h <= len idxs /\
                     hit_chunk_id h ∈ chunk_ids md /\
                     hit_metadata h ∈ chunk_metadata md) results /\
    StronglySorted Z.lt (map rank results).
Proof.
  unfold search_index, search_body.
  set (w1 := if bool_decide (is_Some (indices (mgr w) !! filename)) then w
             else snd (_load_index_from_disk filename w)).
  destruct (indices (mgr w1) !! filename) as [r|] eqn:Hi; [|discriminate].
  destruct (metadata (mgr w1) !! filename) as [md|] eqn:Hm; [|discriminate].
  unfold search_ready.
  destruct (bm25s_retrieve r query top_k) as [[scores idxs]|] eqn:Hr; [|discriminate].
  destruct (format_results md 0 (combine scores idxs)) as [results|] eqn:Hf;
    [|discriminate].
  cbn. intros H. injection H as <- <-.
  destruct (format_results_sound md _ _ _ Hf) as [Hl Hall].
  pose proof (format_results_ranks md _ _ _ Hf) as Hs.
  pose proof (length_combine scores idxs) as Hc.
  exists r, md, scores, idxs, results.
  repeat (split; [first [eassumption | reflexivity | (unfold len; lia)]|]).
  split; [|exact Hs].
  eapply Forall_impl; [exact Hall|]. cbn. unfold len.
  intros h ([H1 H2] & Hrest). split; [lia | exact Hrest].
Qed.

(** With metadata whose two sequences have the same length and rows whose
    indices are all valid, nothing is dropped and nothing is raised: the
    [j]-th row becomes the [j]-th result, with rank [j + 1], the row's
    score, and the chunk id and metadata stored at the row's index. *)
Theorem format_results_maps_rows md (rows : list (Score * Z)) (i : Z) :
  length (chunk_metadata md) = length (chunk_ids md) ->
  Forall (fun row => 0 <= snd row < len (chunk_ids md)) rows ->
  exists hits,
    format_results md i rows = Ok hits /\
    length hits = length rows /\
    forall (j : nat) (score : Score) (idx : Z),
      rows !! j = Some (score, idx) ->
      exists cid m,
        chunk_ids md !! Z.to_nat idx = Some cid /\
        chunk_metadata md !! Z.to_nat idx = Some m /\
        hits !! j = Some {| rank := i + Z.of_nat j + 1; hit_chunk_id := cid;
                            hit_score := score; hit_metadata := m |}.
Proof.
  intros Hlen Hall. revert i.
  induction Hall as [|[score idx] rows Hrow _ IH]; intros i.
  - exists []. split; [reflexivity|]. split; [reflexivity|]. intros j ? ? H.
    now rewrite lookup_nil in H.
  - cbn [snd] in Hrow. cbn [format_results].
    assert (Hlt : (idx <? len (chunk_ids md)) = true) by lia. rewrite Hlt.
    destruct (py_index_valid (chunk_ids md) idx Hrow) as (cid & -> & Hcid).
    assert (Hrow' : 0 <= idx < len (chunk_metadata md)) by (unfold len in *; lia).
    destruct (py_index_valid (chunk_metadata md) idx Hrow') as (m & -> & Hmeta).
    destruct (IH (i + 1)) as (hits & -> & Hl & Hrec).
    eexists. split; [reflexivity|]. split; [cbn; now rewrite Hl|].
    intros [|j] score' idx' Hj; cbn in Hj.
    + injection Hj as <- <-. exists cid, m. cbn.
      split; [exact Hcid|]. split; [exact Hmeta|]. do 2 f_equal. lia.
    + destruct (Hrec j score' idx' Hj) as (cid' & m' & H1 & H2 & H3).
      exists cid', m'. split; [exact H1|]. split; [exact H2|].
      transitivity (hits !! j); [reflexivity|].
      rewrite H3. do 2 f_equal. lia.
Qed.

(** What the formatting loop does with a negative index when the two
    metadata sequences have the same length: below [-len(chunk_ids)] the
    whole search is lost to an [IndexError]; from [-len(chunk_ids)] up the
    row is kept and shows the chunk counted from the end of the list. *)
Theorem negative_index_handling md (i : Z) (score : Score) (idx : Z)
    (rest : list (Score * Z)) :
  idx < 0 ->
  length (chunk_metadata md) = length (chunk_ids md) ->
  (idx < - len (chunk_ids md) ->
   format_results md i ((score, idx) :: rest) = Raise IndexError) /\
  (- len (chunk_ids md) <= idx ->
   exists cid m,
     chunk_ids md !! Z.to_nat (len (chunk_ids md) + idx) = Some cid /\
     chunk_metadata md !! Z.to_nat (len (chunk_ids md) + idx) = Some m /\
     format_results md i ((score, idx) :: rest)
     = match format_results md (i + 1) rest with
       | Raise e => Raise e
       | Ok hits => Ok ({| rank := i + 1; hit_chunk_id := cid;
                           hit_score := score; hit_metadata := m |} :: hits)
       end).
Proof.
  intros Hneg Hlen.
  assert (Hlt : (idx <? len (chunk_ids md)) = true) by (unfold len; lia).
  assert (Hn : (idx <? 0) = true) by lia.
  assert (Hlen' : len (chunk_metadata md) = len (chunk_ids md))
    by (unfold len; now rewrite Hlen).
  split.
  - intros Hlow. cbn [format_results]. rewrite Hlt. unfold py_index. rewrite Hn.
    assert (Hj : (idx + len (chunk_ids md) <? 0) = true) by lia. now rewrite Hj.
  - intros Hhigh. cbn [format_results]. rewrite Hlt. unfold py_index. rewrite Hn.
    rewrite Hlen'.
    assert (Hj : (idx + len (chunk_ids md) <? 0) = false) by lia. rewrite Hj.
    replace (len (chunk_ids md) + idx) with (idx + len (chunk_ids md)) by lia.
    destruct (chunk_ids md !! Z.to_nat (idx + len (chunk_ids md))) as [cid|] eqn:Hc;
      [|apply lookup_ge_None in Hc; unfold len in *; lia].
    destruct (chunk_metadata md !! Z.to_nat (idx + len (chunk_ids md))) as [m|] eqn:Hm;
      [|apply lookup_ge_None in Hm; unfold len in *; lia].
    exists cid, m. repeat split; reflexivity.
Qed.

(** Replace semantics: after a create that built, every chunk id a search
    of that collection returns is the id of one of the chunks just given;
    ids of an earlier build of the name are no longer returned. *)
Theorem search_after_create_only_new_chunks (chunks : list (ChunkData Meta))
    filename (replace_existing : bool) (now : string) (fault : SaveFault) w
    (r : Retriever) :
  bm25s_index (map cd_text chunks) = Ok r ->
  replace_existing = true \/ indices (mgr w) !! filename = None ->
  forall query top_k (resp : Response Meta),
    fst (search_index query filename top_k
           (snd (create_index chunks filename replace_existing now fault w)))
    = Ok resp ->
    exists results,
      resp = RSearch query filename results (len results) /\
      Forall (fun h => hit_chunk_id h ∈ map cd_id chunks) results.
Proof.
  intros Hb Hg query top_k resp.
  rewrite (create_index_builds chunks filename replace_existing now fault w r Hb Hg).
  cbn [snd].
  erewrite search_index_ready;
    [| rewrite save_mgr; cbn; apply lookup_insert_eq
     | rewrite save_mgr; cbn; apply lookup_insert_eq].
  cbn [fst]. unfold search_ready.
  destruct (bm25s_retrieve r query top_k) as [[scores idxs]|]; [|discriminate].
  match goal with
  | |- context [format_results ?md 0 ?rows] =>
      destruct (format_results md 0 rows) as [results|] eqn:Hf; [|discriminate];
      destruct (format_results_sound md rows _ _ Hf) as [_ Hall]
  end.
  cbn. intros H. injection H as <-. exists results. split; [reflexivity|].
  eapply Forall_impl; [exact Hall|]. cbn. tauto.
Qed.

End Results.

(** * Statistics and metadata consistency *)

Section Stats.
Context {Meta : Type} {E : BM25S}.
Implicit Types (w : World Meta) (filename : string) (md : IndexMetadata Meta).

Lemma aligned_run (reqs : list (Request Meta)) w :
  aligned w -> aligned (run reqs w).
Proof.
  revert w. unfold run. induction reqs as [|req reqs IH]; intros w Hw; [exact Hw|].
  cbn [fold_left]. apply IH. now apply aligned_step.
Qed.

(** In every state the service reaches from start-up, [get_stats] is
    coherent: [total_indices] is the number of entries it lists, and the
    names it lists are exactly the collections held in memory. *)
Theorem stats_match_registry (path : string) (d : gmap string (File Meta))
    (reqs : list (Request Meta)) :
  total_indices (get_stats (mgr (run reqs (init path d))))
  = Z.of_nat (size (stats_indices (get_stats (mgr (run reqs (init path d)))))) /\
  dom (stats_indices (get_stats (mgr (run reqs (init path d)))))
  = dom (indices (mgr (run reqs (init path d)))).
Proof.
  assert (Ha : aligned (run reqs (init path d))).
  { apply aligned_run. unfold aligned. cbn. now rewrite !dom_empty_L. }
  unfold aligned in Ha. unfold get_stats. cbn.
  rewrite dom_fmap_L. split; [|now rewrite Ha].
  rewrite map_size_fmap. rewrite <- !size_dom. now rewrite Ha.
Qed.

(** After a create that built, [get_stats] reports the collection with
    [chunk_count] and [corpus_size] both equal to the number of chunks
    given and with the creation time of that create. *)
Theorem stats_after_create (chunks : list (ChunkData Meta)) filename
    (replace_existing : bool) (now : string) (fault : SaveFault) w
    (r : Retriever) :
  bm25s_index (map cd_text chunks) = Ok r ->
  replace_existing = true \/ indices (mgr w) !! filename = None ->
  stats_indices
    (get_stats (mgr (snd (create_index chunks filename replace_existing now fault w))))
    !! filename
  = Some {| stat_chunk_count := len chunks; stat_created_at := now;
            stat_corpus_size := len chunks |}.
Proof.
  intros Hb Hg.
  rewrite (create_index_builds chunks filename replace_existing now fault w r Hb Hg).
  cbn [snd]. rewrite save_mgr. unfold get_stats. cbn.
  rewrite lookup_fmap, lookup_insert_eq. cbn.
  unfold len. now rewrite length_map.
Qed.

Lemma guarded_delete_lookup_Some {V : Type} (k g : string) (m : gmap string V) (x : V) :
  (if bool_decide (is_Some (m !! k)) then delete k m else m) !! g = Some x ->
  m !! g = Some x.
Proof.
  case_bool_decide as Hk; [|trivial]. intros Hx.
  now apply lookup_delete_Some in Hx.
Qed.

Lemma remove_if_exists_disk_sub (rm : string -> option string) (path p : string) w
    (x : File Meta) :
  disk (snd (remove_if_exists rm path w)) !! p = Some x -> disk w !! p = Some x.
Proof.
  unfold remove_if_exists.
  destruct (disk w !! path); [|trivial].
  destruct (rm path); [trivial|]. cbn. intros H.
  now apply lookup_delete_Some in H.
Qed.

Lemma delete_body_disk_sub (rm : string -> option string) filename w (p : string)
    (x : File Meta) :
  disk (snd (delete_body rm filename w)) !! p = Some x -> disk w !! p = Some x.
Proof.
  unfold delete_body.
  match goal with
  | |- context [remove_if_exists rm ?q ?w1] =>
      pose proof (remove_if_exists_disk_sub rm q p w1 x) as H1;
      destruct (remove_if_exists rm q w1) as [[u|e] w2]
  end; cbn [snd] in *; [|exact H1].
  match goal with
  | |- context [remove_if_exists rm ?q ?w1] =>
      pose proof (remove_if_exists_disk_sub rm q p w1 x) as H2;
      destruct (remove_if_exists rm q w1) as [[u'|e] w3]
  end; cbn [snd] in *; intros H; apply H1, H2, H.
Qed.

Lemma save_disk_json (fault : SaveFault) filename (r : Retriever) md w
    (p : string) (m : IndexMetadata Meta) :
  disk (_save_index_to_disk fault filename r md w) !! p = Some (JsonFile m) ->
  m = md \/ disk w !! p = Some (JsonFile m).
Proof.
  destruct fault; cbn; try (intros H; now right);
    repeat match goal with
           | |- context [<[?k := _]> _ !! p] =>
               destruct (decide (k = p)) as [->|?];
               [rewrite lookup_insert_eq | rewrite lookup_insert_ne by assumption]
           end;
    intros H; first [discriminate H | (injection H as <-; now left) | now right].
Qed.

Lemma metadata_consistent_step (req : Request Meta) w :
  metadata_consistent w -> metadata_consistent (snd (step req w)).
Proof.
  intros [Hmem Hdisk].
  destruct req as [chunks filename replace_existing now fault
                  | query filename top_k | rm filename]; cbn [step].
  - destruct (create_index_world chunks filename replace_existing now fault w)
      as [-> | (r & md & -> & Hids & Hmeta & Hcount & Hsize)]; [now split|].
    assert (Hmd : md_consistent md).
    { unfold md_consistent, len. rewrite Hids, Hmeta, Hcount, Hsize.
      now rewrite !length_map. }
    split.
    + intros g m. rewrite save_mgr. cbn.
      destruct (decide (filename = g)) as [->|Hne].
      * rewrite lookup_insert_eq. intros H. now injection H as <-.
      * rewrite lookup_insert_ne by exact Hne. apply Hmem.
    + intros p m H. apply save_disk_json in H as [->|H]; [exact Hmd|].
      eapply Hdisk. exact H.
  - rewrite search_index_world. case_bool_decide as Hin; [now split|].
    destruct (load_cases filename w) as [(r & md & _ & Hm & ->)|[_ ->]]; [|now split].
    cbn. split; [|exact Hdisk].
    intros g m. cbn.
    destruct (decide (filename = g)) as [->|Hne].
    + rewrite lookup_insert_eq. intros Hx. injection Hx as <-. eapply Hdisk, Hm.
    + rewrite lookup_insert_ne by exact Hne. apply Hmem.
  - rewrite delete_index_world. split.
    + intros g m. rewrite delete_body_mgr. cbn. intros H.
      apply guarded_delete_lookup_Some in H. eapply Hmem, H.
    + intros p m H. apply delete_body_disk_sub in H. eapply Hdisk, H.
Qed.

(** On a storage directory whose metadata documents are consistent (an
    empty one, for instance), every metadata dictionary the service ever
    holds in memory or writes to disk has [len(chunk_ids)],
    [len(chunk_metadata)], [corpus_size] and [chunk_count] all equal,
    through any sequence of requests and write failures. *)
Theorem metadata_stays_consistent (path : string) (d : gmap string (File Meta))
    (reqs : list (Request Meta)) :
  (forall p md, d !! p = Some (JsonFile md) -> md_consistent md) ->
  metadata_consistent (run reqs (init path d)).
Proof.
  intros Hd.
  assert (H0 : metadata_consistent (init path d)).
  { split; [|exact Hd]. intros g m. cbn. now rewrite lookup_empty. }
  revert H0. generalize (init path d) as w. unfold run.
  induction reqs as [|req reqs IH]; intros w Hw; [exact Hw|].
  cbn [fold_left]. apply IH. now apply metadata_consistent_step.
Qed.

End Stats.

(** * Further concrete cases *)

Module MoreCases.
Import Examples.

#[local] Existing Instance SpecEngine.overlap_engine.

Lemma search_lazy_load_witness :
  indices (mgr restarted) !! "doc" = None /\
  disk restarted !! index_path restarted "doc" = Some (PickleFile pets_artifact) /\
  disk restarted !! metadata_path restarted "doc" = Some (JsonFile pets_metadata) /\
  (fst (search_index "cat" "doc" 1 restarted)
   = reraise_500 "Search failed: "
       (search_ready pets_artifact pets_metadata "cat" "doc" 1) /\
   indices (mgr (snd (search_index "cat" "doc" 1 restarted))) !! "doc"
   = Some pets_artifact /\
   metadata (mgr (snd (search_index "cat" "doc" 1 restarted))) !! "doc"
   = Some pets_metadata /\
   disk (snd (search_index "cat" "doc" 1 restarted)) = disk restarted).
Proof.
  split; [reflexivity|]. split; [reflexivity|]. split; [reflexivity|].
  apply (search_lazy_load "cat" "doc" 1 restarted pets_artifact pets_metadata);
    reflexivity.
Defined.

Lemma search_after_restart_witness :
  bm25s_index (map cd_text pets) = Ok pets_artifact /\
  (true = true \/ indices (mgr fresh) !! "doc" = None) /\
  fst (search_index "cat" "doc" 1
         (restart (snd (create_index pets "doc" true "t0" NoFault fresh))))
  = fst (search_index "cat" "doc" 1
           (snd (create_index pets "doc" true "t0" NoFault fresh))).
Proof.
  split; [reflexivity|]. split; [left; reflexivity|].
  apply (search_after_restart pets "doc" true "t0" fresh pets_artifact "cat" 1);
    [reflexivity | left; reflexivity].
Defined.

Lemma interrupted_save_witness :
  bm25s_index (map cd_text birds) = Ok birds_artifact /\
  (true = true \/ indices (mgr indexed) !! "doc" = None) /\
  disk indexed !! metadata_path indexed "doc" = Some (JsonFile pets_metadata) /\
  _load_index_from_disk "doc"
    (restart (snd (create_index birds "doc" true "t1" OpenMetadataFails indexed)))
  = (true,
     set_mgr (restart (snd (create_index birds "doc" true "t1"
                              OpenMetadataFails indexed)))
       (install "doc" birds_artifact pets_metadata
          (mgr (restart (snd (create_index birds "doc" true "t1"
                                OpenMetadataFails indexed)))))).
Proof.
  split; [reflexivity|]. split; [left; reflexivity|]. split; [reflexivity|].
  apply (interrupted_save_mixes_builds birds "doc" true "t1" indexed
           birds_artifact pets_metadata);
    [reflexivity | left; reflexivity | reflexivity].
Defined.

Lemma failed_dump_witness :
  bm25s_index (map cd_text birds) = Ok birds_artifact /\
  (true = true \/ indices (mgr indexed) !! "doc" = None) /\
  (DumpIndexFails = DumpIndexFails \/ DumpIndexFails = DumpMetadataFails) /\
  (fst (_load_index_from_disk "doc"
          (restart (snd (create_index birds "doc" true "t1" DumpIndexFails indexed))))
   = false /\
   exists detail,
     fst (search_index "cat" "doc" 1
            (restart (snd (create_index birds "doc" true "t1" DumpIndexFails
                             indexed))))
     = Raise (HTTPException 500 detail)).
Proof.
  split; [reflexivity|]. split; [left; reflexivity|]. split; [left; reflexivity|].
  apply (failed_dump_loses_collection birds "doc" true "t1" DumpIndexFails indexed
           birds_artifact "cat" 1);
    [reflexivity | left; reflexivity | left; reflexivity].
Defined.

Lemma search_in_memory_witness :
  mgr indexed = mgr (set_disk indexed ∅) /\
  is_Some (indices (mgr indexed) !! "doc") /\
  (fst (search_index "cat" "doc" 1 indexed)
   = fst (search_index "cat" "doc" 1 (set_disk indexed ∅)) /\
   snd (search_index "cat" "doc" 1 indexed) = indexed).
Proof.
  assert (H : is_Some (indices (mgr indexed) !! "doc"))
    by (eexists; reflexivity).
  split; [reflexivity|]. split; [exact H|].
  exact (search_in_memory_ignores_disk "cat" "doc" 1 indexed (set_disk indexed ∅)
           eq_refl H).
Defined.

Lemma every_failure_is_500_witness :
  fst (step (ReqSearch "cat" "never-created" 10) fresh)
  = Raise (HTTPException 500
             "Search failed: 404: Index not found for filename: never-created") /\
  exists detail,
    HTTPException 500
      "Search failed: 404: Index not found for filename: never-created"
    = HTTPException 500 detail.
Proof.
  split; [reflexivity|].
  apply (every_failure_is_500 (ReqSearch "cat" "never-created" 10) fresh).
  reflexivity.
Defined.

Lemma delete_removes_everything_witness :
  (forall p : string, (fun _ : string => @None string) p = None) /\
  (fst (delete_index (fun _ => None) "doc" indexed) = Ok (RDeleted "doc") /\
   never_existed "doc" (snd (delete_index (fun _ => None) "doc" indexed)) /\
   forall query top_k, exists detail,
     fst (search_index query "doc" top_k
            (snd (delete_index (fun _ => None) "doc" indexed)))
     = Raise (HTTPException 500 detail)).
Proof.
  split; [reflexivity|].
  apply (delete_removes_everything (fun _ => None) "doc" indexed). reflexivity.
Defined.

Lemma create_then_create_witness :
  bm25s_index (map cd_text pets) = Ok pets_artifact /\
  (true = true \/ indices (mgr fresh) !! "doc" = None) /\
  create_index birds "doc" false "t1" NoFault
    (snd (create_index pets "doc" true "t0" DumpMetadataFails fresh))
  = (Ok (RExists "doc" (len birds)
           "Index already exists and replace_existing=False"),
     snd (create_index pets "doc" true "t0" DumpMetadataFails fresh)).
Proof.
  split; [reflexivity|]. split; [left; reflexivity|].
  apply (create_then_create_without_replace pets birds "doc" true "t0" "t1"
           DumpMetadataFails NoFault fresh pets_artifact);
    [reflexivity | left; reflexivity].
Defined.

Lemma search_results_well_formed_witness :
  search_index "the" "doc" 2 indexed
  = (Ok (RSearch "the" "doc"
           [{| rank := 1; hit_chunk_id := "c1"; hit_score := 1;
               hit_metadata := "meta of c1" |};
            {| rank := 2; hit_chunk_id := "c2"; hit_score := 1;
               hit_metadata := "meta of c2" |}] 2), indexed) /\
  exists (r : Retriever) md (scores : list Score) (idxs : list Z)
         (results : list (SearchHit string)),
    indices (mgr indexed) !! "doc" = Some r /\
    metadata (mgr indexed) !! "doc" = Some md /\
    bm25s_retrieve r "the" 2 = Ok (scores, idxs) /\
    RSearch "the" "doc"
      [{| rank := 1; hit_chunk_id := "c1"; hit_score := 1;
          hit_metadata := "meta of c1" |};
       {| rank := 2; hit_chunk_id := "c2"; hit_score := 1;
          hit_metadata := "meta of c2" |}] 2
    = RSearch "the" "doc" results (len results) /\
    len results <= len scores /\ len results <= len idxs /\
    Forall (fun h => 1 <= rank h <= len idxs /\
                     hit_chunk_id h ∈ chunk_ids md /\
                     hit_metadata h ∈ chunk_metadata md) results /\
    StronglySorted Z.lt (map rank results).
Proof.
  assert (H : search_index "the" "doc" 2 indexed
              = (Ok (RSearch "the" "doc"
                       [{| rank := 1; hit_chunk_id := "c1"; hit_score := 1;
                           hit_metadata := "meta of c1" |};
                        {| rank := 2; hit_chunk_id := "c2"; hit_score := 1;
                           hit_metadata := "meta of c2" |}] 2), indexed))
    by reflexivity.
  split; [exact H|].
  exact (search_results_well_formed "the" "doc" 2 indexed _ _ H).
Defined.

Lemma format_results_maps_rows_witness :
  length (chunk_metadata two_chunks) = length (chunk_ids two_chunks) /\
  Forall (fun row : Z * Z => 0 <= snd row < len (chunk_ids two_chunks))
         [(5, 1); (3, 0)] /\
  exists hits,
    format_results two_chunks 0 [(5, 1); (3, 0)] = Ok hits /\
    length hits = length [(5, 1); (3, 0)] /\
    forall (j : nat) (score : Score) (idx : Z),
      [(5, 1); (3, 0)] !! j = Some (score, idx) ->
      exists cid m,
        chunk_ids two_chunks !! Z.to_nat idx = Some cid /\
        chunk_metadata two_chunks !! Z.to_nat idx = Some m /\
        hits !! j = Some {| rank := 0 + Z.of_nat j + 1; hit_chunk_id := cid;
                            hit_score := score; hit_metadata := m |}.
Proof.
  assert (H : Forall (fun row : Z * Z => 0 <= snd row < len (chunk_ids two_chunks))
                [(5, 1); (3, 0)])
    by (repeat constructor; cbn; lia).
  split; [reflexivity|]. split; [exact H|].
  exact (format_results_maps_rows two_chunks [(5, 1); (3, 0)] 0 eq_refl H).
Defined.

Lemma negative_index_handling_witness :
  -1 < 0 /\
  length (chunk_metadata two_chunks) = length (chunk_ids two_chunks) /\
  ((-1 < - len (chunk_ids two_chunks) ->
    format_results two_chunks 0 [(7, -1)] = Raise IndexError) /\
   (- len (chunk_ids two_chunks) <= -1 ->
    exists cid m,
      chunk_ids two_chunks !! Z.to_nat (len (chunk_ids two_chunks) + -1) = Some cid /\
      chunk_metadata two_chunks !! Z.to_nat (len (chunk_ids two_chunks) + -1)
      = Some m /\
      format_results two_chunks 0 [(7, -1)]
      = match format_results two_chunks (0 + 1) [] with
        | Raise e => Raise e
        | Ok hits => Ok ({| rank := 0 + 1; hit_chunk_id := cid;
                            hit_score := 7; hit_metadata := m |} :: hits)
        end)).
Proof.
  split; [lia|]. split; [reflexivity|].
  apply (negative_index_handling (E := SpecEngine.overlap_engine) two_chunks 0 7 (-1) []);
    [lia | reflexivity].
Defined.

Lemma search_after_create_only_new_chunks_witness :
  bm25s_index (map cd_text birds) = Ok birds_artifact /\
  (true = true \/ indices (mgr indexed) !! "doc" = None) /\
  forall query top_k (resp : Response string),
    fst (search_index query "doc" top_k
           (snd (create_index birds "doc" true "t1" NoFault indexed)))
    = Ok resp ->
    exists results,
      resp = RSearch query "doc" results (len results) /\
      Forall (fun h => hit_chunk_id h ∈ map cd_id birds) results.
Proof.
  split; [reflexivity|]. split; [left; reflexivity|].
  apply (search_after_create_only_new_chunks birds "doc" true "t1" NoFault indexed
           birds_artifact);
    [reflexivity | left; reflexivity].
Defined.

Lemma stats_after_create_witness :
  bm25s_index (map cd_text pets) = Ok pets_artifact /\
  (true = true \/ indices (mgr fresh) !! "doc" = None) /\
  stats_indices
    (get_stats (mgr (snd (create_index pets "doc" true "t0" OpenIndexFails fresh))))
    !! "doc"
  = Some {| stat_chunk_count := len pets; stat_created_at := "t0";
            stat_corpus_size := len pets |}.
Proof.
  split; [reflexivity|]. split; [left; reflexivity|].
  apply (stats_after_create pets "doc" true "t0" OpenIndexFails fresh pets_artifact);
    [reflexivity | left; reflexivity].
Defined.

Lemma metadata_stays_consistent_witness :
  (forall (p : string) (md : IndexMetadata string),
     (∅ : gmap string (File string)) !! p = Some (JsonFile md) -> md_consistent md) /\
  metadata_consistent
    (run [ReqCreate pets "doc" true "t0" NoFault; ReqSearch "cat" "doc" 1;
          ReqCreate birds "doc" true "t1" DumpMetadataFails;
          ReqDelete (fun _ => None) "other"]
       (init store ∅)).
Proof.
  assert (H : forall (p : string) (md : IndexMetadata string),
             (∅ : gmap string (File string)) !! p = Some (JsonFile md) ->
             md_consistent md)
    by (intros p md Hp; rewrite lookup_empty in Hp; discriminate Hp).
  split; [exact H|].
  exact (metadata_stays_consistent store ∅ _ H).
Defined.

End MoreCases.
